(** * goldfish/request: change requests and the root-token ceremony

    A shallow embedding of [request/request.go]: the request registry
    ([Add], [Get], [Remove], [IsRootOnly]), the root token generator
    ([generateRootToken]) and the unseal relay ([appendUnseal],
    [unwrapUnseals]), with the properties the specification states
    about them.

    Go strings are byte strings ([string]); a [map[string]interface{}]
    is a [gmap string value]; a Go [error] is its message; a function
    that returns [(x, error)] returns a pair whose second component is
    [None] for [nil]; a pointer is an [option].  Calls to the vault
    package and to the policy variant thread a world [W] explicitly. *)

From Stdlib Require Import ZArith Ascii String List Lia.
From stdpp Require Import base option list gmap strings.

Local Open Scope Z_scope.

(** * Go values and results *)

(** What an [interface{}] taken from a decoded secret can hold. *)
Inductive value : Type :=
  | VNil
  | VBool (b : bool)
  | VNumber (n : Z)
  | VString (s : string).

Abbreviation fields := (gmap string value).
Abbreviation error := string.

(** [v.(string)] in its two-result form: the zero value and [false]
    when [v] holds something else. *)
Definition assertString (v : value) : string * bool :=
  match v with
  | VString s => (s, true)
  | _ => ("", false)
  end.

(** A call either returns or panics. *)
Inductive result (A : Type) : Type :=
  | Ret (a : A)
  | Panic.
Arguments Ret {A} a.
Arguments Panic {A}.

Definition go (W A : Type) : Type := W -> result A * W.

Definition ret {W A} (a : A) : go W A := fun w => (Ret a, w).

Definition bind {W A B} (m : go W A) (k : A -> go W B) : go W B :=
  fun w => match m w with
           | (Ret a, w') => k a w'
           | (Panic, w') => (Panic, w')
           end.

(** A call into a collaborator that always returns. *)
Definition call {W A} (f : W -> A * W) : go W A :=
  fun w => let (a, w') := f w in (Ret a, w').

(** [p.Field] on a pointer: a nil pointer dereference panics. *)
Definition deref {W A} (p : option A) : go W A :=
  fun w => match p with
           | Some a => (Ret a, w)
           | None => (Panic, w)
           end.

(** The one-result form [v.(string)]: panics when [v] is not a string. *)
Definition mustString {W} (v : value) : go W string :=
  fun w => match v with
           | VString s => (Ret s, w)
           | _ => (Panic, w)
           end.

Declare Scope go_scope.
Delimit Scope go_scope with go.
Notation "x <- m ;; k" := (bind m (fun x => k))
  (at level 100, m at next level, right associativity) : go_scope.

(** * The Go library functions the package calls *)

Module strings.

Definition byteOf (c : ascii) : Z := Z.of_N (N_of_ascii c).

(** [utf8.RuneSelf]: bytes below it are one-byte runes. *)
Definition RuneSelf : Z := 128.

Fixpoint isASCII (s : string) : bool :=
  match s with
  | EmptyString => true
  | String c s' => (byteOf c <? RuneSelf) && isASCII s'
  end.

Definition isUpper (c : ascii) : bool :=
  (byteOf "A" <=? byteOf c) && (byteOf c <=? byteOf "Z").

Definition lowerByte (c : ascii) : ascii :=
  if isUpper c then ascii_of_N (Z.to_N (byteOf c + (byteOf "a" - byteOf "A")))
  else c.

Fixpoint mapBytes (f : ascii -> ascii) (s : string) : string :=
  match s with
  | EmptyString => EmptyString
  | String c s' => String (f c) (mapBytes f s')
  end.

(** The rune-wise branches of [ToLower] and [Fields] consult the
    Unicode tables, which are not part of this package. *)
Class Unicode := {
  MapToLower : string -> string;
  FieldsFuncIsSpace : string -> list string
}.

Definition ToLower `{Unicode} (s : string) : string :=
  if isASCII s then mapBytes lowerByte s else MapToLower s.

(** [asciiSpace]: tab, newline, vertical tab, form feed, carriage
    return and space. *)
Definition asciiSpace (c : ascii) : bool :=
  let b := byteOf c in ((9 <=? b) && (b <=? 13)) || (b =? 32).

(** The fields of [s] and whether [s] starts inside one. *)
Fixpoint fieldsASCII (s : string) : list string * bool :=
  match s with
  | EmptyString => ([], false)
  | String c s' =>
      let (fs, inField) := fieldsASCII s' in
      if asciiSpace c then (fs, false)
      else if inField then
        (match fs with
         | f :: fs' => String c f :: fs'
         | [] => [String c EmptyString]
         end, true)
      else (String c EmptyString :: fs, true)
  end.

Definition Fields `{Unicode} (s : string) : list string :=
  if isASCII s then (fieldsASCII s).1 else FieldsFuncIsSpace s.

Fixpoint Join (elems : list string) (sep : string) : string :=
  match elems with
  | [] => ""
  | [e] => e
  | e :: rest => e +:+ sep +:+ Join rest sep
  end.

(** [Split s sep] for a one-byte separator, as the package calls it. *)
Fixpoint Split (s : string) (sep : ascii) : list string :=
  match s with
  | EmptyString => [""]
  | String c s' =>
      if decide (c = sep) then "" :: Split s' sep
      else match Split s' sep with
           | f :: fs => String c f :: fs
           | [] => [String c EmptyString]
           end
  end.

Fixpoint inCutset (c : ascii) (cutset : string) : bool :=
  match cutset with
  | EmptyString => false
  | String d cutset' => bool_decide (c = d) || inCutset c cutset'
  end.

Fixpoint TrimLeft (s cutset : string) : string :=
  match s with
  | EmptyString => EmptyString
  | String c s' => if inCutset c cutset then TrimLeft s' cutset else s
  end.

Fixpoint TrimRight (s cutset : string) : string :=
  match s with
  | EmptyString => EmptyString
  | String c s' =>
      match TrimRight s' cutset with
      | EmptyString => if inCutset c cutset then EmptyString else String c EmptyString
      | r => String c r
      end
  end.

(** [Trim] with a cutset of one-byte runes. *)
Definition Trim (s cutset : string) : string :=
  TrimLeft (TrimRight s cutset) cutset.

End strings.

Module fmt.
(** [fmt.Sprint] of one [[]string] operand: the elements between
    brackets, separated by spaces. *)
Definition Sprint (a : list string) : string :=
  "[" +:+ strings.Join a " " +:+ "]".
End fmt.

Module strconv.

Definition digits : string := "0123456789abcdefghijklmnopqrstuvwxyz".

Definition digit (d : Z) : ascii :=
  match String.get (Z.to_nat d) digits with
  | Some c => c
  | None => "0"%char
  end.

(** Digits of [u] in front of [acc], least significant first; a
    uint64 has at most 64 digits in any base. *)
Fixpoint formatBits (fuel : nat) (u base : Z) (acc : string) : string :=
  match fuel with
  | O => acc
  | S fuel' =>
      if u <? base then String (digit u) acc
      else formatBits fuel' (u / base) base (String (digit (u mod base)) acc)
  end.

Definition FormatUint (i : Z) (base : Z) : string :=
  formatBits 64 i base "".

End strconv.

(** * The collaborators *)

(** ** The vault package

    Its functions are declared outside this package; they are taken as
    the operations of a world [W]. *)
Module vault.

(** The part of a read secret the package looks at. *)
Record Secret := { Data : fields }.

(** The part of a root generation status the package looks at. *)
Record GenerateRootStatusResponse := {
  Nonce : string;
  EncodedRootToken : string
}.

Class Cubbyhole (W : Type) := {
  ReadFromCubbyhole : string -> W -> (option Secret * option error) * W;
  (** The first result of the write is discarded by its only caller. *)
  WriteToCubbyhole : string -> fields -> W -> option error * W
}.

Class Wrapping (W : Type) := {
  WrapData : string -> fields -> W -> (string * option error) * W;
  UnwrapData : string -> W -> (fields * option error) * W
}.

Class GenerateRoot (W : Type) := {
  GenerateRootInit :
    string -> W -> (option GenerateRootStatusResponse * option error) * W;
  GenerateRootUpdate :
    string -> string -> W -> (option GenerateRootStatusResponse * option error) * W;
  GenerateRootCancel : W -> option error * W
}.

End vault.

(** ** Third-party encoders *)

(** [securecookie.GenerateRandomKey]: the world supplies the bytes. *)
Module securecookie.
Class Random (W : Type) := {
  GenerateRandomKey : Z -> W -> list Byte.byte * W
}.
End securecookie.

(** [base64.StdEncoding.EncodeToString], [xor.XORBase64] and
    [uuid.FormatUUID]. *)
Class Codecs := {
  EncodeToString : list Byte.byte -> string;
  XORBase64 : string -> string -> list Byte.byte * option error;
  FormatUUID : list Byte.byte -> string * option error
}.

(** ** The request variants *)

(** The [Request] interface, with the receiver as first argument. *)
Module Request.
Class Interface (W AuthInfo R : Type) := {
  IsRootOnly : R -> bool;
  Verify : R -> AuthInfo -> W -> option error * W;
  Approve : R -> string -> string -> W -> option error * W;
  Reject : R -> AuthInfo -> string -> W -> option error * W;
  Create : R -> AuthInfo -> fields -> W -> (string * option error) * W
}.
End Request.

(** Modelled from the spec: the struct [PolicyRequest] is declared in
    another file of this package.  The spec gives the policy
    request a string field [Name] among its payload; [withName] is the
    assignment [req.Name = s].  [zero] is the value of [var req
    PolicyRequest], [Decode] is [mapstructure.Decode] into that struct,
    and [Hash] is [hashstructure.Hash] of it, a [uint64]. *)
Class PolicyStruct (PolicyRequest : Type) := {
  zero : PolicyRequest;
  Name : PolicyRequest -> string;
  withName : string -> PolicyRequest -> PolicyRequest;
  Name_withName : forall s r, Name (withName s r) = s;
  Decode : fields -> PolicyRequest * option error;
  Hash : PolicyRequest -> Z * option error;
  Hash_uint64 : forall r, 0 <= (Hash r).1 < 2 ^ 64
}.

(** * The package *)

Section request.

Context {W AuthInfo PolicyRequest : Type}.
Context `{!strings.Unicode, !Codecs}.
Context `{!vault.Cubbyhole W, !vault.Wrapping W, !vault.GenerateRoot W}.
Context `{!securecookie.Random W}.
Context `{!PolicyStruct PolicyRequest}.
Context `{!Request.Interface W AuthInfo PolicyRequest}.

Local Open Scope go_scope.

(** The identifier under which a request is stored: its structural
    hash in hexadecimal, as [Get] and [Remove] recompute it. *)
Definition changeID (req : PolicyRequest) : string :=
  strconv.FormatUint (Hash req).1 16.

(** [Type] as the registry reads it from a payload: the empty string
    when the field is missing or not a string. *)
Definition typeOf (raw : fields) : string :=
  match raw !! "Type" with
  | Some typeRaw => (assertString typeRaw).1
  | None => ""
  end.

(** adds a request if user has authentication *)
Definition Add (auth : AuthInfo) (raw : fields) : go W (string * option error) :=
  let t := typeOf raw in
  if decide (t = "") then ret ("", Some "Type field is empty")
  else if decide (strings.ToLower t = "policy") then
    call (Request.Create zero auth raw)
  else ret ("", Some "Unsupported request type").

(** fetches a request if it exists, and if user has authentication *)
Definition Get (auth : AuthInfo) (hash : string)
  : go W (option PolicyRequest * option error) :=
  r <- call (vault.ReadFromCubbyhole ("requests/" +:+ hash)) ;;
  let '(resp, err) := r in
  match err with
  | Some e => ret (None, Some e)
  | None =>
  match resp with
  | None => ret (None, Some "Change ID not found")
  | Some resp =>
    let t := typeOf (vault.Data resp) in
    if decide (t = "") then ret (None, Some "Invalid request type")
    else if decide (strings.ToLower t = "policy") then
      let '(req, err) := Decode (vault.Data resp) in
      match err with
      | Some e => ret (None, Some e)
      | None =>
        let '(hash_uint64, err) := Hash req in
        if bool_decide (err <> None)
           || bool_decide (strconv.FormatUint hash_uint64 16 <> hash)
        then ret (None, Some "Hashes do not match")
        else
          err <- call (Request.Verify req auth) ;;
          match err with
          | Some e => ret (None, Some e)
          | None => ret (Some req, None)
          end
      end
    else ret (None, Some ("Invalid request type: " +:+ t))
  end
  end.

(** delete request, if user is authorized to read resource *)
Definition Remove (auth : AuthInfo) (hash : string) : go W (option error) :=
  r <- call (vault.ReadFromCubbyhole ("requests/" +:+ hash)) ;;
  let '(resp, err) := r in
  match err with
  | Some e => ret (Some e)
  | None =>
  match resp with
  | None => ret (Some "Change ID not found")
  | Some resp =>
    let t := typeOf (vault.Data resp) in
    if decide (t = "") then ret (Some "Invalid request type")
    else if decide (strings.ToLower t = "policy") then
      let '(req, err) := Decode (vault.Data resp) in
      match err with
      | Some e => ret (Some e)
      | None =>
        let '(hash_uint64, err) := Hash req in
        if bool_decide (err <> None)
           || bool_decide (strconv.FormatUint hash_uint64 16 <> hash)
        then ret (Some "Hashes do not match")
        else call (Request.Reject req auth hash)
      end
    else ret (Some ("Invalid request type: " +:+ t))
  end
  end.

Definition IsRootOnly (req : PolicyRequest) : bool :=
  Request.IsRootOnly (W := W) (AuthInfo := AuthInfo) req.

(** What the loop over the unseal keys leaves: the status to go on
    with, or the values of a [return] from inside the loop. *)
Inductive submitted : Type :=
  | Next (status : option vault.GenerateRootStatusResponse)
  | Return (token : string) (err : option error).

(** The [for _, s := range unsealKeys] loop of [generateRootToken]. *)
Fixpoint submitShares (unsealKeys : list string)
    (status : option vault.GenerateRootStatusResponse) : go W submitted :=
  match unsealKeys with
  | [] => ret (Next status)
  | s :: unsealKeys' =>
      st <- deref status ;;
      r <- call (vault.GenerateRootUpdate s (vault.Nonce st)) ;;
      let '(status, err) := r in
      match err with
      | Some e =>
          (* an error likely means one of the unseals was not valid *)
          err2 <- call vault.GenerateRootCancel ;;
          match err2 with
          | Some e2 =>
              ret (Return "" (Some ("Could not generate root token: "
                                     +:+ e +:+ ", " +:+ e2)))
          | None => submitShares unsealKeys' status
          end
      | None => submitShares unsealKeys' status
      end
  end.

(** Lines 156 to 170: what is done with the status once the shares
    are in. *)
Definition decodeRootToken (otp : string)
    (status : option vault.GenerateRootStatusResponse)
  : go W (string * option error) :=
  st <- deref status ;;
  if decide (vault.EncodedRootToken st = "") then
    ret ("", Some "Could not generate root token. Was vault re-keyed just now?")
  else
    let '(tokenBytes, err) := XORBase64 (vault.EncodedRootToken st) otp in
    match err with
    | Some _ => ret ("", Some "Could not decode root token. Please search and revoke")
    | None =>
      let '(token, err) := FormatUUID tokenBytes in
      match err with
      | Some _ => ret ("", Some "Could not decode root token. Please search and revoke")
      | None => ret (token, None)
      end
    end.

(** attempts to generate a root token via unseal keys
    will return error if another key generation process is underway *)
Definition generateRootToken (unsealKeys : list string)
  : go W (string * option error) :=
  key <- call (securecookie.GenerateRandomKey 16) ;;
  let otp := EncodeToString key in
  r <- call (vault.GenerateRootInit otp) ;;
  let '(status, err) := r in
  match err with
  | Some e => ret ("", Some e)
  | None =>
    st <- deref status ;;
    phase <- (if decide (vault.EncodedRootToken st = "")
              then submitShares unsealKeys status
              else ret (Next status)) ;;
    match phase with
    | Return token err => ret (token, err)
    | Next status => decodeRootToken otp status
    end
  end.

(** The bucket as [appendUnseal] writes it back. *)
Definition serialize (wrappingTokens : list string) : string :=
  strings.Trim
    (strings.Join (strings.Fields (fmt.Sprint wrappingTokens)) ";") "[]".

(** Lines 195 to 212 of [appendUnseal]: wrap the share, append its
    token to the tokens read, write the bucket back. *)
Definition wrapAndStore (hash unseal : string) (wrappingTokens : list string)
  : go W (list string * option error) :=
  (* wrap the unseal token *)
  r <- call (vault.WrapData "60m" {[ "unseal_token" := VString unseal ]}) ;;
  let '(newWrappingToken, err) := r in
  match err with
  | Some e => ret ([], Some e)
  | None =>
    (* add the new unseal key in *)
    let wrappingTokens := wrappingTokens ++ [newWrappingToken] in
    (* write the unseals back to the cubbyhole *)
    err <- call (vault.WriteToCubbyhole ("unseal_wrapping_tokens/" +:+ hash)
                   {[ "wrapping_tokens" := VString (serialize wrappingTokens) ]}) ;;
    ret (wrappingTokens, err)
  end.

(** writes the provided unseal in and returns a slice of all unseals in hash *)
Definition appendUnseal (hash unseal : string)
  : go W (list string * option error) :=
  (* read current request from cubbyhole *)
  r <- call (vault.ReadFromCubbyhole ("unseal_wrapping_tokens/" +:+ hash)) ;;
  let '(resp, err) := r in
  match err with
  | Some e => ret ([], Some e)
  | None =>
    (* if there are already unseals, read them and append *)
    match resp with
    | Some resp =>
        let raw := match vault.Data resp !! "wrapping_tokens" with
                   | Some temp => (assertString temp).1
                   | None => ""
                   end in
        if decide (raw = "") then
          ret ([], Some "Could not find key 'wrapping_tokens' in cubbyhole")
        else wrapAndStore hash unseal ([] ++ strings.Split raw ";")
    | None => wrapAndStore hash unseal []
    end
  end.

(** The loop of [unwrapUnseals], with the shares collected so far. *)
Fixpoint unwrapFrom (wrappingTokens : list string) (unseals : list string)
  : go W (list string * option error) :=
  match wrappingTokens with
  | [] => ret (unseals, None)
  | wrappingToken :: wrappingTokens' =>
      r <- call (vault.UnwrapData wrappingToken) ;;
      let '(data, err) := r in
      match err with
      | Some e => ret ([], Some e)
      | None =>
        match data !! "unseal_token" with
        | Some unseal =>
            s <- mustString unseal ;;
            unwrapFrom wrappingTokens' (unseals ++ [s])
        | None =>
            ret ([], Some "One of the wrapping tokens timed out. Progress reset.")
        end
      end
  end.

Definition unwrapUnseals (wrappingTokens : list string)
  : go W (list string * option error) :=
  unwrapFrom wrappingTokens [].

End request.

(** * A model of the service *)

(** Modelled from the spec: the secrets service behind the vault
    package, as section 6 describes it.  [read] returns the record at a
    path or its absence, [write] replaces it; [wrap] hands out a fresh
    single-use token for a payload and [unwrap] returns the payload of
    a token once, failing for a token that was consumed, has expired or
    was never issued.  Tokens are opaque: [supply] lists the ones the
    service will hand out next, and the service refuses to wrap when
    none is left.  [expire] is the passing of a token's lifetime. *)
Module SpecVault.

Record world := {
  cubbyhole : gmap string fields;
  wrapped : gmap string fields;
  supply : list string
}.

Definition read (path : string) (w : world)
  : (option vault.Secret * option error) * world :=
  ((vault.Build_Secret <$> cubbyhole w !! path, None), w).

Definition write (path : string) (data : fields) (w : world)
  : option error * world :=
  (None, {| cubbyhole := <[path := data]> (cubbyhole w);
            wrapped := wrapped w;
            supply := supply w |}).

Definition wrap (ttl : string) (data : fields) (w : world)
  : (string * option error) * world :=
  match supply w with
  | [] => (("", Some "wrapping refused"), w)
  | token :: rest =>
      ((token, None), {| cubbyhole := cubbyhole w;
                         wrapped := <[token := data]> (wrapped w);
                         supply := rest |})
  end.

Definition unwrap (token : string) (w : world)
  : (fields * option error) * world :=
  match wrapped w !! token with
  | Some data =>
      ((data, None), {| cubbyhole := cubbyhole w;
                        wrapped := delete token (wrapped w);
                        supply := supply w |})
  | None => ((∅, Some "wrapping token is not valid or does not exist"), w)
  end.

Definition expire (token : string) (w : world) : world :=
  {| cubbyhole := cubbyhole w;
     wrapped := delete token (wrapped w);
     supply := supply w |}.

#[global] Instance cubbyhole_ops : vault.Cubbyhole world :=
  {| vault.ReadFromCubbyhole := read; vault.WriteToCubbyhole := write |}.

#[global] Instance wrapping_ops : vault.Wrapping world :=
  {| vault.WrapData := wrap; vault.UnwrapData := unwrap |}.

(** A service that holds nothing and will hand out [tokens]. *)
Definition fresh (tokens : list string) : world :=
  {| cubbyhole := ∅; wrapped := ∅; supply := tokens |}.


(** Token [t] wraps the share [s]. *)
Definition holds (w : world) (t s : string) : Prop :=
  wrapped w !! t = Some {[ "unseal_token" := VString s ]}.

End SpecVault.

(** * Running the package *)

(** Calls made one after the other, each on the world the previous one
    left. *)
Fixpoint runEach {W A} (calls : list (go W A)) (w : W) : list (result A) * W :=
  match calls with
  | [] => ([], w)
  | c :: calls' =>
      let (r, w1) := c w in
      let (rs, w2) := runEach calls' w1 in
      (r :: rs, w2)
  end.

(** A token of the shape the service issues: not empty, made of ASCII
    bytes none of which is white space, the bucket delimiter or a
    bracket. *)
Definition plainByte (c : ascii) : bool :=
  (strings.byteOf c <? strings.RuneSelf)
  && negb (strings.asciiSpace c)
  && negb (strings.inCutset c ";[]").

Fixpoint allBytes (p : ascii -> bool) (s : string) : bool :=
  match s with
  | EmptyString => true
  | String c s' => p c && allBytes p s'
  end.

Definition plainToken (t : string) : bool :=
  negb (bool_decide (t = "")) && allBytes plainByte t.

(** The spellings of an ASCII word in every mix of upper and lower case. *)
Definition upperByte (c : ascii) : ascii :=
  let b := strings.byteOf c in
  if (97 <=? b) && (b <=? 122) then ascii_of_N (Z.to_N (b - 32)) else c.

Fixpoint spellings (s : string) : list string :=
  match s with
  | EmptyString => [""]
  | String c s' =>
      let rest := spellings s' in
      (String c <$> rest) ++
      (if bool_decide (upperByte c = c) then [] else String (upperByte c) <$> rest)
  end.



(** * Fixtures: concrete collaborators to run the package on *)
Module Fixture.

(** The inputs below are ASCII and never reach the rune-wise
    branches. *)
#[global] Instance unicode : strings.Unicode :=
  {| strings.MapToLower := fun s => s;
     strings.FieldsFuncIsSpace := fun s => [s] |}.

(** A policy variant with the two fields the spec names, stored
    under its own identifier in the modelled service. *)
Record PolicyRequest := { policyType : string; policyName : string }.

Definition stringAt (key : string) (data : fields) : string :=
  match data !! key with
  | Some v => (assertString v).1
  | None => ""
  end.

Definition decode (data : fields) : PolicyRequest * option error :=
  ({| policyType := stringAt "Type" data;
      policyName := stringAt "Name" data |}, None).

Fixpoint mix (h : Z) (s : string) : Z :=
  match s with
  | EmptyString => h
  | String c s' => mix ((h * 1099511628211 + strings.byteOf c) mod 2 ^ 64) s'
  end.

Definition hash (r : PolicyRequest) : Z * option error :=
  (mix (mix 14695981039346656037 (policyType r)) (policyName r) mod 2 ^ 64,
   None).

#[global] Instance policy_struct : PolicyStruct PolicyRequest :=
  {| zero := {| policyType := ""; policyName := "" |};
     Name := policyName;
     withName := fun s r => {| policyType := policyType r; policyName := s |};
     Name_withName := fun s r => eq_refl;
     Decode := decode;
     Hash := hash;
     Hash_uint64 := fun r => Z.mod_pos_bound _ (2 ^ 64) eq_refl |}.

Definition create (r : PolicyRequest) (auth : unit) (raw : fields)
    (w : SpecVault.world) : (string * option error) * SpecVault.world :=
  let id := changeID (decode raw).1 in
  let (err, w') := SpecVault.write ("requests/" +:+ id) raw w in
  ((id, err), w').

Definition reject (r : PolicyRequest) (auth : unit) (hash : string)
    (w : SpecVault.world) : option error * SpecVault.world :=
  (None, {| SpecVault.cubbyhole := delete ("requests/" +:+ hash) (SpecVault.cubbyhole w);
            SpecVault.wrapped := SpecVault.wrapped w;
            SpecVault.supply := SpecVault.supply w |}).

#[global] Instance policy_methods
  : Request.Interface SpecVault.world unit PolicyRequest :=
  {| Request.IsRootOnly := fun _ => false;
     Request.Verify := fun _ _ w => (None, w);
     Request.Approve := fun _ _ _ w => (None, w);
     Request.Reject := reject;
     Request.Create := create |}.

(** A root generation service that replays canned replies and keeps
    the shares it was sent. *)
Record ceremony := {
  random : list Byte.byte;
  onInit : option vault.GenerateRootStatusResponse * option error;
  onUpdate : list (option vault.GenerateRootStatusResponse * option error);
  onCancel : option error;
  sent : list (string * string);
  cancelled : nat
}.

Definition update (shard nonce : string) (w : ceremony)
  : (option vault.GenerateRootStatusResponse * option error) * ceremony :=
  let w' reply rest :=
    {| random := random w; onInit := onInit w; onUpdate := rest;
       onCancel := onCancel w; sent := sent w ++ [(shard, nonce)];
       cancelled := cancelled w |} in
  match onUpdate w with
  | [] => ((None, Some "no root generation in progress"), w' () [])
  | reply :: rest => (reply, w' () rest)
  end.

Definition cancel (w : ceremony) : option error * ceremony :=
  (onCancel w,
   {| random := random w; onInit := onInit w; onUpdate := onUpdate w;
      onCancel := onCancel w; sent := sent w;
      cancelled := S (cancelled w) |}).

#[global] Instance ceremony_ops : vault.GenerateRoot ceremony :=
  {| vault.GenerateRootInit := fun otp w => (onInit w, w);
     vault.GenerateRootUpdate := update;
     vault.GenerateRootCancel := cancel |}.

#[global] Instance ceremony_random : securecookie.Random ceremony :=
  {| securecookie.GenerateRandomKey := fun n w => (random w, w) |}.

(** Encoders that only report what they were given. *)
#[global] Instance codecs : Codecs :=
  {| EncodeToString := fun key => "otp";
     XORBase64 := fun a b =>
       if bool_decide (String.length a = String.length b) then ([], None)
       else ([], Some "length of byte slices is not equivalent");
     FormatUUID := fun buf => ("uuid", None) |}.

(** A service on which every token unwraps to a share. *)
#[global] Instance echo_wrapping : vault.Wrapping unit :=
  {| vault.WrapData := fun ttl data w => (("token", None), w);
     vault.UnwrapData := fun token w =>
       (({[ "unseal_token" := VString token ]}, None), w) |}.

End Fixture.

(** A lower-case hexadecimal digit. *)
Definition hexDigit (c : ascii) : bool :=
  let b := strings.byteOf c in
  ((48 <=? b) && (b <=? 57)) || ((97 <=? b) && (b <=? 102)).

(** A service that is out of reach: every read and every wrap fails. *)
Module Outage.

Record world := { attempts : nat }.

Definition tick (w : world) : world := {| attempts := S (attempts w) |}.

#[global] Instance cubbyhole_ops : vault.Cubbyhole world :=
  {| vault.ReadFromCubbyhole := fun path w => ((None, Some "Vault is sealed"), tick w);
     vault.WriteToCubbyhole := fun path data w => (Some "Vault is sealed", tick w) |}.

#[global] Instance wrapping_ops : vault.Wrapping world :=
  {| vault.WrapData := fun ttl data w => (("", Some "Vault is sealed"), tick w);
     vault.UnwrapData := fun token w => ((∅, Some "Vault is sealed"), tick w) |}.

#[global] Instance policy_methods
  : Request.Interface world unit Fixture.PolicyRequest :=
  {| Request.IsRootOnly := fun _ => false;
     Request.Verify := fun _ _ w => (None, w);
     Request.Approve := fun _ _ _ w => (None, w);
     Request.Reject := fun _ _ _ w => (None, w);
     Request.Create := fun _ _ _ w => (("", Some "Vault is sealed"), tick w) |}.

#[global] Instance ceremony_ops : vault.GenerateRoot world :=
  {| vault.GenerateRootInit := fun otp w => ((None, Some "Vault is sealed"), tick w);
     vault.GenerateRootUpdate := fun s nonce w => ((None, Some "Vault is sealed"), tick w);
     vault.GenerateRootCancel := fun w => (Some "Vault is sealed", tick w) |}.

#[global] Instance random : securecookie.Random world :=
  {| securecookie.GenerateRandomKey := fun n w => ([], w) |}.

End Outage.

(** A policy variant whose decoder insists on a string [Name]. *)
Module Strict.

Record PolicyRequest := { name : string }.

Definition decode (data : fields) : PolicyRequest * option error :=
  match data !! "Name" with
  | Some (VString s) => ({| name := s |}, None)
  | Some _ => ({| name := "" |}, Some "'Name' expected type 'string'")
  | None => ({| name := "" |}, None)
  end.

Definition policy_struct : PolicyStruct PolicyRequest :=
  {| zero := {| name := "" |};
     Name := name;
     withName := fun s r => {| name := s |};
     Name_withName := fun s r => eq_refl;
     Decode := decode;
     Hash := fun r => (Fixture.mix 14695981039346656037 (name r) mod 2 ^ 64, None);
     Hash_uint64 := fun r => Z.mod_pos_bound _ (2 ^ 64) eq_refl |}.

Definition policy_methods
  : Request.Interface SpecVault.world unit PolicyRequest :=
  {| Request.IsRootOnly := fun _ => true;
     Request.Verify := fun _ _ w => (Some "request has expired", w);
     Request.Approve := fun _ _ _ w => (None, w);
     Request.Reject := fun _ _ _ w => (Some "permission denied", w);
     Request.Create := fun _ _ _ w => (("", Some "permission denied"), w) |}.

End Strict.

(** * Facts about the library functions *)

Section library_facts.

Import strings.

Example Sprint_two : fmt.Sprint ["t1"; "t2"] = "[t1 t2]".
Proof. reflexivity. Qed.

Example serialize_two : serialize ["t1"; "t2"] = "t1;t2".
Proof. reflexivity. Qed.

Example Split_two : Split "t1;t2" ";" = ["t1"; "t2"].
Proof. reflexivity. Qed.

Example ToLower_Policy : ToLower "Policy" = "policy".
Proof. reflexivity. Qed.

Example FormatUint_hex : strconv.FormatUint 48879 16 = "beef".
Proof. reflexivity. Qed.

Example FormatUint_zero : strconv.FormatUint 0 16 = "0".
Proof. reflexivity. Qed.

Lemma append_cons c s t : String c s +:+ t = String c (s +:+ t).
Proof. reflexivity. Qed.

Lemma append_empty_l t : "" +:+ t = t.
Proof. reflexivity. Qed.

Lemma append_empty_r s : s +:+ "" = s.
Proof. induction s as [|c s IH]; [done|]. by rewrite append_cons, IH. Qed.

Lemma append_assoc s t u : (s +:+ t) +:+ u = s +:+ t +:+ u.
Proof. induction s as [|c s IH]; [done|]. by rewrite !append_cons, IH. Qed.

Lemma allBytes_app p s t :
  allBytes p (s +:+ t) = allBytes p s && allBytes p t.
Proof.
  induction s as [|c s IH]; [done|].
  rewrite append_cons. simpl. rewrite IH. by destruct (p c).
Qed.

Lemma allBytes_impl (p q : ascii -> bool) s :
  (forall c, p c = true -> q c = true) ->
  allBytes p s = true -> allBytes q s = true.
Proof.
  intros Hpq. induction s as [|c s IH]; [done|]. simpl.
  intros [Hc Hs]%andb_prop. rewrite (Hpq _ Hc). simpl. auto.
Qed.

Lemma isASCII_allBytes s :
  isASCII s = allBytes (fun c => byteOf c <? RuneSelf) s.
Proof. induction s as [|c s IH]; [done|]. simpl. by rewrite IH. Qed.

(** ** [Join] *)

Lemma Join_cons e e' rest sep :
  Join (e :: e' :: rest) sep = e +:+ sep +:+ Join (e' :: rest) sep.
Proof. reflexivity. Qed.

Lemma Join_snoc l e sep :
  l <> [] -> Join (l ++ [e]) sep = Join l sep +:+ sep +:+ e.
Proof.
  induction l as [|a l IH]; [done|]. intros _.
  destruct l as [|b l]; [done|].
  change ((a :: b :: l) ++ [e]) with (a :: b :: (l ++ [e])).
  rewrite !Join_cons. change (b :: (l ++ [e])) with ((b :: l) ++ [e]).
  rewrite IH by done. by rewrite !append_assoc.
Qed.

Lemma allBytes_Join p l sep :
  Forall (fun t => allBytes p t = true) l -> allBytes p sep = true ->
  allBytes p (Join l sep) = true.
Proof.
  intros Hl Hsep. induction Hl as [|t l Ht Hl IH]; [done|].
  destruct l as [|t' l]; [done|].
  rewrite Join_cons, !allBytes_app, Ht, Hsep. simpl. exact IH.
Qed.

Lemma Join_nonempty t l sep : t <> "" -> Join (t :: l) sep <> "".
Proof.
  intros Ht. destruct l as [|t' l]; [done|]. rewrite Join_cons.
  destruct t; [done|]. by rewrite append_cons.
Qed.

(** ** [Split] undoes [Join] on elements free of the separator *)

Lemma Split_nonempty s sep : Split s sep <> [].
Proof.
  destruct s as [|c s]; [done|]. simpl.
  case_decide; [done|]. by destruct (Split s sep).
Qed.

Lemma Split_app t sep rest :
  allBytes (fun c => negb (bool_decide (c = sep))) t = true ->
  Split (t +:+ String sep rest) sep = t :: Split rest sep.
Proof.
  induction t as [|c t IH].
  - intros _. rewrite append_empty_l. simpl. by rewrite decide_True.
  - simpl. intros [Hc Ht]%andb_prop. rewrite ?append_cons. simpl.
    apply negb_true_iff, bool_decide_eq_false in Hc.
    rewrite decide_False by done. by rewrite IH.
Qed.

Lemma Split_one t sep :
  allBytes (fun c => negb (bool_decide (c = sep))) t = true ->
  Split t sep = [t].
Proof.
  induction t as [|c t IH]; simpl; [done|].
  intros [Hc Ht]%andb_prop.
  apply negb_true_iff, bool_decide_eq_false in Hc.
  rewrite decide_False by done. by rewrite IH.
Qed.

Lemma Split_Join l sep :
  l <> [] ->
  Forall (fun t => allBytes (fun c => negb (bool_decide (c = sep))) t = true) l ->
  Split (Join l (String sep "")) sep = l.
Proof.
  intros Hne Hl. induction Hl as [|t l Ht Hl IH]; [done|].
  destruct l as [|t' l]; [by apply Split_one|].
  rewrite Join_cons, append_cons, append_empty_l, Split_app by done.
  by rewrite IH.
Qed.

(** ** [Fields] of a printed slice *)

Lemma fieldsASCII_space c rest :
  asciiSpace c = true ->
  fieldsASCII (String c rest) = ((fieldsASCII rest).1, false).
Proof. intros Hc. simpl. rewrite Hc. by destruct (fieldsASCII rest). Qed.

Lemma fieldsASCII_byte c rest :
  asciiSpace c = false ->
  fieldsASCII (String c rest) =
    match fieldsASCII rest with
    | (f :: fs, true) => (String c f :: fs, true)
    | ([], true) => ([String c ""], true)
    | (fs, false) => (String c "" :: fs, true)
    end.
Proof.
  intros Hc. simpl. rewrite Hc.
  by destruct (fieldsASCII rest) as [[|f fs] [|]].
Qed.

Lemma fieldsASCII_extend w f fs rest :
  allBytes (fun c => negb (asciiSpace c)) w = true ->
  fieldsASCII rest = (f :: fs, true) ->
  fieldsASCII (w +:+ rest) = ((w +:+ f) :: fs, true).
Proof.
  intros Hw Hrest. induction w as [|c w IH]; [done|].
  simpl in Hw. apply andb_prop in Hw as [Hc Hw].
  apply negb_true_iff in Hc.
  by rewrite !append_cons, fieldsASCII_byte, (IH Hw).
Qed.

Lemma fieldsASCII_word w fs rest :
  w <> "" ->
  allBytes (fun c => negb (asciiSpace c)) w = true ->
  fieldsASCII rest = (fs, false) ->
  fieldsASCII (w +:+ rest) = (w :: fs, true).
Proof.
  intros Hne Hw Hrest. induction w as [|c w IH]; [done|].
  simpl in Hw. apply andb_prop in Hw as [Hc Hw].
  apply negb_true_iff in Hc.
  rewrite append_cons, fieldsASCII_byte by done.
  destruct w as [|d w].
  - rewrite append_empty_l, Hrest. by destruct fs.
  - by rewrite IH.
Qed.

Lemma Join_prepend a f fs sep :
  Join ((a +:+ f) :: fs) sep = a +:+ Join (f :: fs) sep.
Proof. destruct fs as [|g fs]; [done|]. by rewrite !Join_cons, append_assoc. Qed.

Lemma fieldsASCII_printed l :
  l <> [] ->
  Forall (fun t => plainToken t = true) l ->
  exists f fs,
    fieldsASCII (Join l " " +:+ "]") = (f :: fs, true)
    /\ Join (f :: fs) ";" = Join l ";" +:+ "]".
Proof.
  intros Hne Hl. induction Hl as [|t l Ht Hl IH]; [done|].
  unfold plainToken in Ht. apply andb_prop in Ht as [Ht0 Ht].
  apply negb_true_iff, bool_decide_eq_false in Ht0.
  assert (allBytes (fun c => negb (asciiSpace c)) t = true) as Hsp.
  { revert Ht. apply allBytes_impl. intros c Hc. unfold plainByte in Hc.
    by apply andb_prop in Hc as [[_ ?]%andb_prop _]. }
  destruct l as [|t' l].
  - exists (t +:+ "]"), []. split; [|done].
    by apply fieldsASCII_extend.
  - destruct IH as (f & fs & Hf & HJ); [done|].
    exists t, (f :: fs). split.
    + rewrite Join_cons, !append_assoc. apply fieldsASCII_word; [done..|].
      rewrite append_cons, append_empty_l, fieldsASCII_space by done.
      by rewrite Hf.
    + rewrite !Join_cons, HJ. by rewrite !append_assoc.
Qed.

(** ** [Trim] of the brackets *)

Lemma TrimRight_id s cutset :
  allBytes (fun c => negb (inCutset c cutset)) s = true ->
  TrimRight s cutset = s.
Proof.
  induction s as [|c s IH]; [done|]. simpl.
  intros [Hc Hs]%andb_prop. rewrite (IH Hs).
  apply negb_true_iff in Hc. rewrite Hc. by destruct s.
Qed.

Lemma TrimRight_last s d cutset :
  inCutset d cutset = true ->
  TrimRight (s +:+ String d "") cutset = TrimRight s cutset.
Proof.
  intros Hd. induction s as [|c s IH].
  - rewrite append_empty_l. simpl. by rewrite Hd.
  - rewrite append_cons. simpl. by rewrite IH.
Qed.

Lemma Trim_brackets s :
  s <> "" ->
  allBytes (fun c => negb (inCutset c "[]")) s = true ->
  Trim ("[" +:+ s +:+ "]") "[]" = s.
Proof.
  intros Hne Hs. unfold Trim.
  rewrite <- append_assoc, TrimRight_last by done.
  rewrite append_cons, append_empty_l.
  assert (TrimRight (String "[" s) "[]" = String "[" s) as ->.
  { simpl. rewrite (TrimRight_id _ _ Hs). by destruct s. }
  destruct s as [|c s]; [done|]. simpl in Hs |- *.
  apply andb_prop in Hs as [Hc _]. apply negb_true_iff in Hc.
  simpl in Hc. by rewrite Hc.
Qed.

End library_facts.

(** * The unseal relay *)

Section relay_facts.

Context `{!strings.Unicode}.

Lemma plainToken_bytes t :
  plainToken t = true -> t <> "" /\ allBytes plainByte t = true.
Proof.
  unfold plainToken. intros [Hne Hb]%andb_prop. split; [|done].
  by apply negb_true_iff, bool_decide_eq_false in Hne.
Qed.

Lemma plainTokens_all (q : ascii -> bool) l :
  (forall c, plainByte c = true -> q c = true) ->
  Forall (fun t => plainToken t = true) l ->
  Forall (fun t => allBytes q t = true) l.
Proof.
  intros Hq Hl. eapply Forall_impl; [exact Hl|].
  intros t [_ Ht]%plainToken_bytes. revert Ht. by apply allBytes_impl.
Qed.

Lemma plainByte_ascii c : plainByte c = true -> (strings.byteOf c <? strings.RuneSelf) = true.
Proof. unfold plainByte. by intros [[? _]%andb_prop _]%andb_prop. Qed.

Lemma plainByte_no_semicolon c :
  plainByte c = true -> negb (bool_decide (c = ";"%char)) = true.
Proof.
  unfold plainByte. intros [_ Hc]%andb_prop. simpl in Hc.
  by destruct (bool_decide (c = ";"%char)).
Qed.

Lemma plainByte_no_bracket c :
  plainByte c = true -> negb (strings.inCutset c "[]") = true.
Proof.
  unfold plainByte. intros [_ Hc]%andb_prop. simpl in Hc |- *.
  destruct (bool_decide (c = ";"%char)); [done|]. exact Hc.
Qed.

(** On plain tokens the bucket is written as the tokens joined by
    the delimiter. *)
Lemma serialize_plain l :
  l <> [] -> Forall (fun t => plainToken t = true) l ->
  serialize l = strings.Join l ";".
Proof.
  intros Hne Hl. unfold serialize, strings.Fields, fmt.Sprint.
  assert (strings.isASCII ("[" +:+ strings.Join l " " +:+ "]") = true) as ->.
  { rewrite isASCII_allBytes, !allBytes_app, allBytes_Join; [done| |done].
    apply plainTokens_all; [apply plainByte_ascii|done]. }
  destruct (fieldsASCII_printed l Hne Hl) as (f & fs & Hf & HJ).
  rewrite append_cons, append_empty_l, fieldsASCII_byte by done.
  rewrite Hf. simpl fst.
  change (String "[" f) with ("[" +:+ f).
  rewrite Join_prepend, HJ.
  destruct l as [|t l]; [done|].
  apply Trim_brackets.
  - apply Join_nonempty. by apply Forall_inv, plainToken_bytes in Hl as [? _].
  - apply allBytes_Join; [|done]. apply plainTokens_all; [apply plainByte_no_bracket|done].
Qed.

Lemma Split_serialize l :
  l <> [] -> Forall (fun t => plainToken t = true) l ->
  strings.Split (serialize l) ";" = l /\ serialize l <> "".
Proof.
  intros Hne Hl. rewrite serialize_plain by done. split.
  - apply Split_Join; [done|]. apply plainTokens_all; [apply plainByte_no_semicolon|done].
  - destruct l as [|t l]; [done|].
    apply Join_nonempty. by apply Forall_inv, plainToken_bytes in Hl as [? _].
Qed.

(** ** One ceremony on the modelled service *)

Import SpecVault.


Lemma Forall2_elem_of_impl {A B} (P Q : A -> B -> Prop) l k :
  Forall2 P l k -> (forall x y, x ∈ l -> P x y -> Q x y) -> Forall2 Q l k.
Proof.
  induction 1 as [|x y l k Hxy Hlk IH]; intros Himpl; constructor.
  - apply Himpl; [left|done].
  - apply IH. intros x' y' Hx'. apply Himpl. by right.
Qed.


Lemma unwrapFrom_held : forall toks shares acc w,
  NoDup toks ->
  Forall2 (holds w) toks shares ->
  exists w', unwrapFrom toks acc w = (Ret (acc ++ shares, None), w').
Proof.
  induction toks as [|t toks IH]; intros shares acc w Hnd Hall.
  - apply Forall2_nil_inv_l in Hall as ->. exists w. by rewrite app_nil_r.
  - apply Forall2_cons_inv_l in Hall as (s & shares' & Ht & Hall & ->).
    apply NoDup_cons in Hnd as [Hfresh Hnd].
    destruct (IH shares' (acc ++ [s])
      {| cubbyhole := cubbyhole w;
         wrapped := delete t (wrapped w);
         supply := supply w |} Hnd) as (w' & Hrun).
    + eapply Forall2_elem_of_impl; [exact Hall|].
      intros p q Hp Hq. unfold holds in *. cbn.
      rewrite lookup_delete_ne; [done|]. by intros ->.
    + exists w'. unfold holds in Ht.
      cbn [unwrapFrom]. unfold bind, call. cbn. unfold unwrap. rewrite Ht.
      cbn. rewrite lookup_singleton_eq. cbn.
      rewrite Hrun. by rewrite <- app_assoc.
Qed.


End relay_facts.



(** ** Unwrapping, on any service *)

Section unwrap_facts.

Context {W : Type} `{!vault.Wrapping W}.

(** Tokens that all unwrap leave the loop where it would start on
    the remaining ones. *)
Lemma unwrapFrom_app pre : forall rest acc (w : W) shares w1,
  unwrapFrom pre acc w = (Ret (shares, None), w1) ->
  unwrapFrom (pre ++ rest) acc w = unwrapFrom rest shares w1.
Proof.
  induction pre as [|t pre IH]; intros rest acc w shares w1 Hpre.
  - cbn in Hpre. unfold ret in Hpre. by simplify_eq.
  - cbn [app unwrapFrom] in Hpre |- *. unfold bind, call in Hpre |- *.
    destruct (vault.UnwrapData t w) as [[data [e|]] w2]; [done|].
    destruct (data !! "unseal_token") as [v|]; [|done].
    destruct v; cbn in Hpre |- *; try done.
    by apply IH.
Qed.

Lemma unwrapFrom_returns toks : forall acc (w : W) shares err w',
  unwrapFrom toks acc w = (Ret (shares, err), w') ->
  match err with
  | None => length shares = (length acc + length toks)%nat
  | Some _ => shares = []
  end.
Proof.
  induction toks as [|t toks IH]; intros acc w shares err w' Hrun.
  - cbn in Hrun. unfold ret in Hrun. simplify_eq. cbn. lia.
  - cbn [unwrapFrom] in Hrun. unfold bind, call in Hrun.
    destruct (vault.UnwrapData t w) as [[data [e|]] w2].
    { unfold ret in Hrun. by simplify_eq. }
    destruct (data !! "unseal_token") as [v|].
    2:{ unfold ret in Hrun. by simplify_eq. }
    destruct v; cbn in Hrun; try done.
    apply IH in Hrun. destruct err; [done|].
    rewrite Hrun, length_app. cbn. lia.
Qed.

(** A call that returns shares unwrapped every token: the ones before
    any [t] and [t] itself. *)
Lemma unwrapFrom_success pre : forall t post acc (w : W) shares w',
  unwrapFrom (pre ++ t :: post) acc w = (Ret (shares, None), w') ->
  exists shares1 w1 data w2,
    unwrapFrom pre acc w = (Ret (shares1, None), w1)
    /\ vault.UnwrapData t w1 = ((data, None), w2).
Proof.
  induction pre as [|p pre IH]; intros t post acc w shares w' Hrun.
  - exists acc, w. cbn [app unwrapFrom] in Hrun. unfold bind, call in Hrun.
    destruct (vault.UnwrapData t w) as [[data [e|]] w2]; [done|].
    by exists data, w2.
  - cbn [app unwrapFrom] in Hrun |- *. unfold bind, call in Hrun |- *.
    destruct (vault.UnwrapData p w) as [[data [e|]] w2]; [done|].
    destruct (data !! "unseal_token") as [v|]; [|done].
    destruct v; cbn in Hrun |- *; try done.
    by apply IH in Hrun.
Qed.

(** C4: [unwrapUnseals] is all or nothing.  Whatever it returns is
    either one share per token and no error, or an error and no
    share.  When the tokens before [t] unwrap and the unwrap of [t]
    fails, the call returns that failure and no share, whatever tokens
    follow [t], none of which is unwrapped.  And it returns shares
    only when the unwrap of every token succeeded. *)
Theorem unwrapUnseals_all_or_nothing toks (w : W) :
  (forall shares err w',
      unwrapUnseals toks w = (Ret (shares, err), w') ->
      match err with
      | None => length shares = length toks
      | Some _ => shares = []
      end)
  /\ (forall pre t post shares w1 data e w2,
        toks = pre ++ t :: post ->
        unwrapUnseals pre w = (Ret (shares, None), w1) ->
        vault.UnwrapData t w1 = ((data, Some e), w2) ->
        unwrapUnseals toks w = (Ret ([], Some e), w2))
  /\ (forall pre t post shares w',
        toks = pre ++ t :: post ->
        unwrapUnseals toks w = (Ret (shares, None), w') ->
        exists shares1 w1 data w2,
          unwrapUnseals pre w = (Ret (shares1, None), w1)
          /\ vault.UnwrapData t w1 = ((data, None), w2)).
Proof.
  split; [|split].
  - intros shares err w' Hrun. by apply unwrapFrom_returns in Hrun.
  - intros pre t post shares w1 data e w2 -> Hpre Hfail.
    unfold unwrapUnseals in *. rewrite (unwrapFrom_app _ _ _ _ _ _ Hpre).
    cbn [unwrapFrom]. unfold bind, call. by rewrite Hfail.
  - intros pre t post shares w' -> Hrun.
    by apply unwrapFrom_success in Hrun.
Qed.

Lemma unwrapFrom_total toks : forall acc (w : W),
  (forall t w data w',
      vault.UnwrapData t w = ((data, None), w') ->
      exists s, data !! "unseal_token" = Some (VString s)) ->
  (unwrapFrom toks acc w).1 <> Panic.
Proof.
  induction toks as [|t toks IH]; intros acc w Htyped; [done|].
  cbn [unwrapFrom]. unfold bind, call.
  destruct (vault.UnwrapData t w) as [[data [e|]] w2] eqn:Hun; [done|].
  destruct (Htyped _ _ _ _ Hun) as [s ->]. cbn. by apply IH.
Qed.

(** C10: [unwrapUnseals] does not panic when every payload that
    unwraps maps [unseal_token] to a string; and when the tokens
    before [t] unwrap to shares and [t] unwraps to a payload that
    maps [unseal_token] to something else, the call panics at [t]
    instead of returning an error. *)
Theorem unwrapUnseals_panics_on_untyped_share :
  ((forall t (w : W) data w',
       vault.UnwrapData t w = ((data, None), w') ->
       exists s, data !! "unseal_token" = Some (VString s)) ->
   forall toks (w : W), (unwrapUnseals toks w).1 <> Panic)
  /\ (forall pre t post (w : W) shares w1 data v w2,
        unwrapUnseals pre w = (Ret (shares, None), w1) ->
        vault.UnwrapData t w1 = ((data, None), w2) ->
        data !! "unseal_token" = Some v ->
        (forall s, v <> VString s) ->
        unwrapUnseals (pre ++ t :: post) w = (Panic, w2)).
Proof.
  split.
  - intros Htyped toks w. by apply unwrapFrom_total.
  - intros pre t post w shares w1 data v w2 Hpre Hun Hv Hnot.
    unfold unwrapUnseals in *. rewrite (unwrapFrom_app _ _ _ _ _ _ Hpre).
    cbn [unwrapFrom]. unfold bind, call. rewrite Hun, Hv.
    destruct v; try done. by destruct (Hnot s).
Qed.

End unwrap_facts.

(** Three shares relayed, the second token expired before the
    ceremony: nothing is returned, although the third token is valid. *)
Lemma unwrapUnseals_all_or_nothing_witness :
  exists w2,
    unwrapUnseals ["t1"; "t2"; "t3"]
      (SpecVault.expire "t2"
         (runEach (appendUnseal "c" <$> ["s1"; "s2"; "s3"])
                  (SpecVault.fresh ["t1"; "t2"; "t3"])).2)
    = (Ret ([], Some "wrapping token is not valid or does not exist"), w2).
Proof.
  eexists.
  eapply (proj1 (proj2 (unwrapUnseals_all_or_nothing _ _)) ["t1"] "t2" ["t3"]).
  - reflexivity.
  - vm_compute. reflexivity.
  - vm_compute. reflexivity.
Defined.

(** A payload whose [unseal_token] is a number, after one that is a
    share. *)
Lemma unwrapUnseals_panics_on_untyped_share_witness :
  (forall toks, (unwrapUnseals toks tt).1 <> Panic)
  /\ exists w2,
       unwrapUnseals ["t1"; "t2"; "t3"]
         {| SpecVault.cubbyhole := ∅;
            SpecVault.wrapped :=
              {[ "t1" := {[ "unseal_token" := VString "s1" ]};
                 "t2" := {[ "unseal_token" := VNumber 7 ]};
                 "t3" := {[ "unseal_token" := VString "s3" ]} ]};
            SpecVault.supply := [] |}
       = (Panic, w2).
Proof.
  split.
  - intros toks.
    apply (proj1 (unwrapUnseals_panics_on_untyped_share (W := unit))).
    intros t w data w' Hun. exists t. cbn in Hun. by simplify_eq.
  - eexists.
    eapply (proj2 unwrapUnseals_panics_on_untyped_share ["t1"] "t2" ["t3"]).
    + vm_compute. reflexivity.
    + vm_compute. reflexivity.
    + reflexivity.
    + intros s. discriminate.
Defined.

(** * The root token generator *)

Section ceremony_facts.

Context {W : Type} `{!Codecs, !vault.GenerateRoot W, !securecookie.Random W}.

(** A rejected share whose cancellation fails ends the ceremony
    with an error that names both failures. *)
Lemma submitShares_rejected_cancel_failed s rest st status' e e2 (w w1 w2 : W) :
  vault.GenerateRootUpdate s (vault.Nonce st) w = ((status', Some e), w1) ->
  vault.GenerateRootCancel w1 = (Some e2, w2) ->
  submitShares (s :: rest) (Some st) w =
    (Ret (Return "" (Some ("Could not generate root token: " +:+ e +:+ ", " +:+ e2))),
     w2).
Proof.
  intros Hup Hcancel. cbn [submitShares]. unfold bind, deref, call.
  by rewrite Hup, Hcancel.
Qed.

(** A rejected share whose cancellation succeeds leaves no trace of
    the rejection: the loop goes on with the status the rejected call
    returned. *)
Lemma submitShares_rejected_cancelled s rest st status' e (w w1 w2 : W) :
  vault.GenerateRootUpdate s (vault.Nonce st) w = ((status', Some e), w1) ->
  vault.GenerateRootCancel w1 = (None, w2) ->
  submitShares (s :: rest) (Some st) w = submitShares rest status' w2.
Proof.
  intros Hup Hcancel. cbn [submitShares]. unfold bind, deref, call.
  by rewrite Hup, Hcancel.
Qed.

(** C6: when the ceremony starts with an empty encoded token and the
    shares are all submitted without the loop returning, an encoded
    token that is still empty makes [generateRootToken] return the
    threshold error and no token, whatever the decoders are. *)
Theorem generateRootToken_threshold_not_met unsealKeys (w : W) key w1 st w2 st' w3 :
  securecookie.GenerateRandomKey 16 w = (key, w1) ->
  vault.GenerateRootInit (EncodeToString key) w1 = ((Some st, None), w2) ->
  vault.EncodedRootToken st = "" ->
  submitShares unsealKeys (Some st) w2 = (Ret (Next (Some st')), w3) ->
  vault.EncodedRootToken st' = "" ->
  generateRootToken unsealKeys w =
    (Ret ("", Some "Could not generate root token. Was vault re-keyed just now?"),
     w3).
Proof.
  intros Hkey Hinit Hempty Hloop Hstill.
  unfold generateRootToken, bind, call, deref. rewrite Hkey, Hinit.
  rewrite decide_True by done. rewrite Hloop.
  unfold decodeRootToken, bind, deref. by rewrite decide_True.
Qed.

(** C9: when the initiation reply already carries an encoded token,
    no share is submitted, whatever the shares are: the service is
    left as the initiation left it and the result is the decoding
    of that token. *)
Theorem generateRootToken_skips_shares unsealKeys (w : W) key w1 st w2 :
  securecookie.GenerateRandomKey 16 w = (key, w1) ->
  vault.GenerateRootInit (EncodeToString key) w1 = ((Some st, None), w2) ->
  vault.EncodedRootToken st <> "" ->
  generateRootToken unsealKeys w =
    (Ret match XORBase64 (vault.EncodedRootToken st) (EncodeToString key) with
         | (_, Some _) =>
             ("", Some "Could not decode root token. Please search and revoke")
         | (tokenBytes, None) =>
             match FormatUUID tokenBytes with
             | (_, Some _) =>
                 ("", Some "Could not decode root token. Please search and revoke")
             | (token, None) => (token, None)
             end
         end,
     w2).
Proof.
  intros Hkey Hinit Hfull.
  unfold generateRootToken, bind, call, deref. rewrite Hkey, Hinit.
  rewrite decide_False by done. unfold ret at 1.
  unfold decodeRootToken, bind, deref. rewrite decide_False by done.
  destruct (XORBase64 _ _) as [tokenBytes [e|]]; [done|].
  by destruct (FormatUUID tokenBytes) as [token [e|]].
Qed.

End ceremony_facts.

(** One share submitted, the encoded token still empty. *)
Lemma generateRootToken_threshold_not_met_witness :
  exists w3,
    generateRootToken ["k1"]
      {| Fixture.random := [];
         Fixture.onInit :=
           (Some {| vault.Nonce := "n"; vault.EncodedRootToken := "" |}, None);
         Fixture.onUpdate :=
           [(Some {| vault.Nonce := "n"; vault.EncodedRootToken := "" |}, None)];
         Fixture.onCancel := None;
         Fixture.sent := [];
         Fixture.cancelled := 0 |}
    = (Ret ("", Some "Could not generate root token. Was vault re-keyed just now?"),
       w3)
    /\ Fixture.sent w3 = [("k1", "n")].
Proof.
  eexists. split.
  - eapply (generateRootToken_threshold_not_met ["k1"]).
    + reflexivity.
    + reflexivity.
    + reflexivity.
    + reflexivity.
    + reflexivity.
  - reflexivity.
Defined.

(** Two shares offered to a ceremony that already has its token: none
    is sent. *)
Lemma generateRootToken_skips_shares_witness :
  exists w2,
    generateRootToken ["k1"; "k2"]
      {| Fixture.random := [];
         Fixture.onInit :=
           (Some {| vault.Nonce := "n"; vault.EncodedRootToken := "enc" |}, None);
         Fixture.onUpdate := [];
         Fixture.onCancel := None;
         Fixture.sent := [];
         Fixture.cancelled := 0 |}
    = (Ret ("uuid", None), w2)
    /\ Fixture.sent w2 = [].
Proof.
  eexists. split.
  - etransitivity.
    + eapply (generateRootToken_skips_shares ["k1"; "k2"]).
      * reflexivity.
      * reflexivity.
      * discriminate.
    + reflexivity.
  - reflexivity.
Defined.

(** C2 fails on the code: a share is rejected and the cancellation
    succeeds.  With the nil status of the rejected call the function
    panics on its next look at the status; with a status that has no
    token it returns the threshold error.  Neither names the
    rejection ("invalid key"). *)
Lemma generateRootToken_drops_rejection :
  (generateRootToken ["bad"]
     {| Fixture.random := [];
        Fixture.onInit :=
          (Some {| vault.Nonce := "n"; vault.EncodedRootToken := "" |}, None);
        Fixture.onUpdate := [(None, Some "invalid key")];
        Fixture.onCancel := None;
        Fixture.sent := [];
        Fixture.cancelled := 0 |}).1 = Panic
  /\ (generateRootToken ["bad"]
        {| Fixture.random := [];
           Fixture.onInit :=
             (Some {| vault.Nonce := "n"; vault.EncodedRootToken := "" |}, None);
           Fixture.onUpdate :=
             [(Some {| vault.Nonce := "n"; vault.EncodedRootToken := "" |},
               Some "invalid key")];
           Fixture.onCancel := None;
           Fixture.sent := [];
           Fixture.cancelled := 0 |}).1
     = Ret ("", Some "Could not generate root token. Was vault re-keyed just now?")
  /\ (generateRootToken ["bad"]
        {| Fixture.random := [];
           Fixture.onInit :=
             (Some {| vault.Nonce := "n"; vault.EncodedRootToken := "" |}, None);
           Fixture.onUpdate := [(None, Some "invalid key")];
           Fixture.onCancel := Some "sealed";
           Fixture.sent := [];
           Fixture.cancelled := 0 |}).1
     = Ret ("", Some "Could not generate root token: invalid key, sealed").
Proof. split; [reflexivity | split; reflexivity]. Qed.

(** * The request registry *)

Section registry_facts.

Context {W AuthInfo PolicyRequest : Type}.
Context `{!strings.Unicode}.
Context `{!vault.Cubbyhole W, !vault.Wrapping W}.
Context `{!PolicyStruct PolicyRequest}.
Context `{!Request.Interface W AuthInfo PolicyRequest}.

Lemma typeOf_empty (raw : fields) :
  raw !! "Type" = None
  \/ (exists v, raw !! "Type" = Some v /\ forall s, v <> VString s)
  \/ raw !! "Type" = Some (VString "") ->
  typeOf raw = "".
Proof.
  unfold typeOf. intros [-> | [(v & -> & Hv) | ->]]; [done| |done].
  destruct v; try done. by destruct (Hv s).
Qed.

Lemma typeOf_string (raw : fields) t :
  raw !! "Type" = Some (VString t) -> typeOf raw = t.
Proof. unfold typeOf. by intros ->. Qed.

Lemma ToLower_spellings t :
  t ∈ spellings "policy" -> strings.ToLower t = "policy" /\ t <> "".
Proof.
  revert t. apply Forall_forall.
  apply (bool_decide_unpack _). vm_compute. exact I.
Qed.

(** C5: [Add] reads [Type] from the payload.  A [Type] that is
    missing, not a string or empty is refused with "Type field is
    empty", and one that does not lower-case to "policy" with
    "Unsupported request type"; in both cases the world is left
    untouched, so nothing is written.  Every spelling of "policy" in
    upper and lower case, and anything else that lower-cases to it, is
    handed to the policy variant's [Create], whose result is
    returned. *)
Theorem Add_validates_type (auth : AuthInfo) (raw : fields) (w : W) :
  (raw !! "Type" = None
   \/ (exists v, raw !! "Type" = Some v /\ forall s, v <> VString s)
   \/ raw !! "Type" = Some (VString "") ->
   Add auth raw w = (Ret ("", Some "Type field is empty"), w))
  /\ (forall t, raw !! "Type" = Some (VString t) ->
        t <> "" -> strings.ToLower t <> "policy" ->
        Add auth raw w = (Ret ("", Some "Unsupported request type"), w))
  /\ (forall t, raw !! "Type" = Some (VString t) ->
        t ∈ spellings "policy" \/ strings.ToLower t = "policy" ->
        Add auth raw w =
          (Ret (Request.Create zero auth raw w).1,
           (Request.Create zero auth raw w).2)).
Proof.
  split; [|split].
  - intros Hraw. unfold Add. by rewrite (typeOf_empty _ Hraw).
  - intros t Ht Hne Hlow. unfold Add. rewrite (typeOf_string _ _ Ht).
    by rewrite decide_False, decide_False.
  - intros t Ht Hpol. unfold Add. rewrite (typeOf_string _ _ Ht).
    assert (strings.ToLower t = "policy" /\ t <> "") as [Hlow Hne].
    { destruct Hpol as [Hin | Hlow]; [by apply ToLower_spellings|].
      split; [done|]. intros ->. discriminate Hlow. }
    rewrite decide_False, decide_True by done.
    unfold call. by destruct (Request.Create zero auth raw w).
Qed.

(** C8: [appendUnseal] reads the bucket at
    [unseal_wrapping_tokens/<hash>].  When the record is there but its
    [wrapping_tokens] is missing, not a string or empty, the call
    fails with the "Could not find key" error and the world is as
    the read left it: nothing is wrapped or written.  When it is a
    non-empty string, the tokens it is split into at the delimiter
    come first in the list that is wrapped onto, written and
    returned. *)
Theorem appendUnseal_reads_bucket hash unseal (w : W) secret w1 :
  vault.ReadFromCubbyhole ("unseal_wrapping_tokens/" +:+ hash) w
    = ((Some secret, None), w1) ->
  (vault.Data secret !! "wrapping_tokens" = None
   \/ (exists v, vault.Data secret !! "wrapping_tokens" = Some v
                 /\ forall s, v <> VString s)
   \/ vault.Data secret !! "wrapping_tokens" = Some (VString "") ->
   appendUnseal hash unseal w =
     (Ret ([], Some "Could not find key 'wrapping_tokens' in cubbyhole"), w1))
  /\ (forall raw token w2 err w3,
        vault.Data secret !! "wrapping_tokens" = Some (VString raw) ->
        raw <> "" ->
        vault.WrapData "60m" {[ "unseal_token" := VString unseal ]} w1
          = ((token, None), w2) ->
        vault.WriteToCubbyhole ("unseal_wrapping_tokens/" +:+ hash)
          {[ "wrapping_tokens" :=
               VString (serialize (strings.Split raw ";" ++ [token])) ]} w2
          = (err, w3) ->
        appendUnseal hash unseal w =
          (Ret (strings.Split raw ";" ++ [token], err), w3)).
Proof.
  intros Hread. split.
  - intros Hraw. unfold appendUnseal, bind, call. rewrite Hread.
    destruct Hraw as [-> | [(v & -> & Hv) | ->]]; [done| |done].
    destruct v; try done. by destruct (Hv s).
  - intros raw token w2 err w3 Hraw Hne Hwrap Hwrite.
    unfold appendUnseal, bind, call. rewrite Hread, Hraw.
    cbn [assertString fst]. rewrite decide_False by done.
    unfold wrapAndStore, bind, call. rewrite Hwrap.
    cbn [app]. by rewrite Hwrite.
Qed.

Lemma ToLower_policy_nonempty t : strings.ToLower t = "policy" -> t <> "".
Proof. intros Hlow ->. discriminate Hlow. Qed.

(** What [Get] does with a record it has read and decoded. *)
Lemma Get_decoded auth hash (w : W) secret w1 req :
  vault.ReadFromCubbyhole ("requests/" +:+ hash) w = ((Some secret, None), w1) ->
  strings.ToLower (typeOf (vault.Data secret)) = "policy" ->
  Decode (vault.Data secret) = (req, None) ->
  Get auth hash w =
    if bool_decide ((Hash req).2 <> None) || bool_decide (changeID req <> hash)
    then (Ret (None, Some "Hashes do not match"), w1)
    else (Ret match (Request.Verify req auth w1).1 with
              | Some e => (None, Some e)
              | None => (Some req, None)
              end,
          (Request.Verify req auth w1).2).
Proof.
  intros Hread Hpol Hdec. unfold Get, bind, call. rewrite Hread.
  rewrite decide_False by by apply ToLower_policy_nonempty.
  rewrite decide_True by done. rewrite Hdec.
  unfold changeID. destruct (Hash req) as [h herr]. cbn [fst snd].
  destruct (bool_decide (herr <> None) || _); [done|].
  by destruct (Request.Verify req auth w1) as [[e|] w2].
Qed.


(** [Remove] makes the same checks and then leaves the deletion to
    the variant's [Reject]. *)
Lemma Remove_decoded auth hash (w : W) secret w1 req :
  vault.ReadFromCubbyhole ("requests/" +:+ hash) w = ((Some secret, None), w1) ->
  strings.ToLower (typeOf (vault.Data secret)) = "policy" ->
  Decode (vault.Data secret) = (req, None) ->
  Remove auth hash w =
    if bool_decide ((Hash req).2 <> None) || bool_decide (changeID req <> hash)
    then (Ret (Some "Hashes do not match"), w1)
    else (Ret (Request.Reject req auth hash w1).1,
          (Request.Reject req auth hash w1).2).
Proof.
  intros Hread Hpol Hdec. unfold Remove, bind, call. rewrite Hread.
  rewrite decide_False by by apply ToLower_policy_nonempty.
  rewrite decide_True by done. rewrite Hdec.
  unfold changeID. destruct (Hash req) as [h herr]. cbn [fst snd].
  destruct (bool_decide (herr <> None) || _); [done|].
  by destruct (Request.Reject req auth hash w1).
Qed.

End registry_facts.

(** Payloads without a usable [Type], with an unknown one and with
    "POLICY", on the modelled service. *)
Lemma Add_validates_type_witness :
  Add tt ∅ (SpecVault.fresh [])
    = (Ret ("", Some "Type field is empty"), SpecVault.fresh [])
  /\ Add tt {[ "Type" := VNumber 3 ]} (SpecVault.fresh [])
    = (Ret ("", Some "Type field is empty"), SpecVault.fresh [])
  /\ Add tt {[ "Type" := VString "token" ]} (SpecVault.fresh [])
    = (Ret ("", Some "Unsupported request type"), SpecVault.fresh [])
  /\ exists w',
      Add tt {[ "Type" := VString "POLICY"; "Name" := VString "readonly" ]}
          (SpecVault.fresh [])
      = (Ret ("68aa7e3779e96dd", None), w').
Proof.
  split; [|split; [|split]].
  - apply (proj1 (Add_validates_type tt ∅ (SpecVault.fresh []))).
    left. reflexivity.
  - apply (proj1 (Add_validates_type tt {[ "Type" := VNumber 3 ]} (SpecVault.fresh []))).
    right; left. exists (VNumber 3). split; [reflexivity|discriminate].
  - apply (proj1 (proj2 (Add_validates_type tt {[ "Type" := VString "token" ]}
                           (SpecVault.fresh []))) "token").
    + reflexivity.
    + discriminate.
    + vm_compute. discriminate.
  - eexists. etransitivity.
    + apply (proj2 (proj2 (Add_validates_type tt
                {[ "Type" := VString "POLICY"; "Name" := VString "readonly" ]}
                (SpecVault.fresh []))) "POLICY").
      * reflexivity.
      * left. apply (bool_decide_unpack _). vm_compute. exact I.
    + vm_compute. reflexivity.
Defined.

(** A bucket whose [wrapping_tokens] is a number, and one that holds
    a token. *)
Lemma appendUnseal_reads_bucket_witness :
  appendUnseal "c" "s2"
    {| SpecVault.cubbyhole :=
         {[ "unseal_wrapping_tokens/c" := {[ "wrapping_tokens" := VNumber 1 ]} ]};
       SpecVault.wrapped := ∅;
       SpecVault.supply := ["t2"] |}
  = (Ret ([], Some "Could not find key 'wrapping_tokens' in cubbyhole"),
     {| SpecVault.cubbyhole :=
          {[ "unseal_wrapping_tokens/c" := {[ "wrapping_tokens" := VNumber 1 ]} ]};
        SpecVault.wrapped := ∅;
        SpecVault.supply := ["t2"] |})
  /\ exists w3,
      appendUnseal "c" "s3"
        {| SpecVault.cubbyhole :=
             {[ "unseal_wrapping_tokens/c" :=
                  {[ "wrapping_tokens" := VString "t1;t2" ]} ]};
           SpecVault.wrapped := ∅;
           SpecVault.supply := ["t3"] |}
      = (Ret (["t1"; "t2"; "t3"], None), w3).
Proof.
  split.
  - refine (proj1 (appendUnseal_reads_bucket "c" "s2" _
                     {| vault.Data := {[ "wrapping_tokens" := VNumber 1 ]} |} _
                     _) _).
    + reflexivity.
    + right; left. exists (VNumber 1). split; [reflexivity|discriminate].
  - eexists.
    refine (proj2 (appendUnseal_reads_bucket "c" "s3" _
                     {| vault.Data := {[ "wrapping_tokens" := VString "t1;t2" ]} |} _
                     _) "t1;t2" "t3" _ None _ _ _ _ _).
    + reflexivity.
    + reflexivity.
    + discriminate.
    + reflexivity.
    + reflexivity.
Defined.


(** * The structural hash as identifier *)

Section hash_facts.

Import strconv.







Context {PolicyRequest : Type} `{!PolicyStruct PolicyRequest}.





End hash_facts.


(** * More on the registry *)

Section registry_more.

Context {W AuthInfo PolicyRequest : Type}.
Context `{!strings.Unicode}.
Context `{!vault.Cubbyhole W}.
Context `{!PolicyStruct PolicyRequest}.
Context `{!Request.Interface W AuthInfo PolicyRequest}.

(** X1: [Remove] reports "Change ID not found" when nothing is stored
    under [hash]; for a stored policy record it fails with "Hashes do
    not match" when the recomputed identifier differs from [hash] or
    the hash cannot be computed, without calling [Reject] (the world
    is as the read left it); otherwise it returns what the variant's
    [Reject] returns. *)
Theorem Remove_verifies_integrity (auth : AuthInfo) (hash : string) (w : W) :
  (forall w1,
      vault.ReadFromCubbyhole ("requests/" +:+ hash) w = ((None, None), w1) ->
      Remove auth hash w = (Ret (Some "Change ID not found"), w1))
  /\ (forall secret w1 req,
        vault.ReadFromCubbyhole ("requests/" +:+ hash) w
          = ((Some secret, None), w1) ->
        strings.ToLower (typeOf (vault.Data secret)) = "policy" ->
        Decode (vault.Data secret) = (req, None) ->
        (changeID req <> hash \/ (Hash req).2 <> None ->
         Remove auth hash w = (Ret (Some "Hashes do not match"), w1))
        /\ (changeID req = hash -> (Hash req).2 = None ->
            forall err w2, Request.Reject req auth hash w1 = (err, w2) ->
            Remove auth hash w = (Ret err, w2))).
Proof.
  split.
  - intros w1 Hread. unfold Remove, bind, call. by rewrite Hread.
  - intros secret w1 req Hread Hpol Hdec.
    rewrite (Remove_decoded _ _ _ _ _ _ Hread Hpol Hdec). split.
    + intros Hbad.
      assert (bool_decide ((Hash req).2 <> None)
              || bool_decide (changeID req <> hash) = true) as ->; [|done].
      apply orb_true_iff.
      destruct Hbad; [right|left]; by apply bool_decide_eq_true.
    + intros Hid Herr err w2 Hrej.
      rewrite !bool_decide_eq_false_2 by (intros Hne; by apply Hne).
      by rewrite Hrej.
Qed.

(** The checks [Get] and [Remove] share. *)
Lemma registry_checks (auth : AuthInfo) (hash : string) (w : W) :
  (exists e,
      Get auth hash w =
        (Ret (None, Some e), (vault.ReadFromCubbyhole ("requests/" +:+ hash) w).2)
      /\ Remove auth hash w =
        (Ret (Some e), (vault.ReadFromCubbyhole ("requests/" +:+ hash) w).2))
  \/ (exists secret w1 req,
        vault.ReadFromCubbyhole ("requests/" +:+ hash) w
          = ((Some secret, None), w1)
        /\ Decode (vault.Data secret) = (req, None)
        /\ changeID req = hash /\ (Hash req).2 = None
        /\ Get auth hash w =
            (Ret match (Request.Verify req auth w1).1 with
                 | Some e => (None, Some e)
                 | None => (Some req, None)
                 end,
             (Request.Verify req auth w1).2)
        /\ Remove auth hash w =
            (Ret (Request.Reject req auth hash w1).1,
             (Request.Reject req auth hash w1).2)).
Proof.
  destruct (vault.ReadFromCubbyhole ("requests/" +:+ hash) w)
    as [[resp [e|]] w1] eqn:Hread.
  { left. exists e. unfold Get, Remove, bind, call. by rewrite Hread. }
  destruct resp as [secret|].
  2:{ left. eexists. unfold Get, Remove, bind, call. by rewrite Hread. }
  destruct (decide (strings.ToLower (typeOf (vault.Data secret)) = "policy"))
    as [Hpol|Hpol].
  2:{ left. unfold Get, Remove, bind, call. rewrite Hread. cbn [snd].
      repeat case_decide; try done; by eexists. }
  destruct (Decode (vault.Data secret)) as [req [e|]] eqn:Hdec.
  { left. exists e. unfold Get, Remove, bind, call. rewrite Hread, Hdec.
    pose proof (ToLower_policy_nonempty _ Hpol).
    by repeat case_decide. }
  rewrite (Get_decoded _ _ _ _ _ _ Hread Hpol Hdec).
  rewrite (Remove_decoded _ _ _ _ _ _ Hread Hpol Hdec).
  destruct (bool_decide ((Hash req).2 <> None)) eqn:Herr.
  { left. by eexists. }
  destruct (bool_decide (changeID req <> hash)) eqn:Hid.
  { left. by eexists. }
  right. exists secret, w1, req.
  apply bool_decide_eq_false in Herr, Hid.
  repeat split; try done.
  - destruct (decide (changeID req = hash)) as [|Hne]; [done|]. by destruct (Hid Hne).
  - destruct ((Hash req).2); [|done]. by destruct Herr.
Qed.

(** X2: [Get] and [Remove] put a stored record through the same
    checks.  Either both fail with the same error and leave the world
    as the read left it, or the record decodes to a request whose
    identifier is [hash], and then [Get] goes on to [Verify] and
    [Remove] to [Reject], on that request and in that world. *)
Theorem Get_Remove_same_checks (auth : AuthInfo) (hash : string) (w : W) :
  (exists e,
      Get auth hash w =
        (Ret (None, Some e), (vault.ReadFromCubbyhole ("requests/" +:+ hash) w).2)
      /\ Remove auth hash w =
        (Ret (Some e), (vault.ReadFromCubbyhole ("requests/" +:+ hash) w).2))
  \/ (exists secret w1 req,
        vault.ReadFromCubbyhole ("requests/" +:+ hash) w
          = ((Some secret, None), w1)
        /\ Decode (vault.Data secret) = (req, None)
        /\ changeID req = hash /\ (Hash req).2 = None
        /\ Get auth hash w =
            (Ret match (Request.Verify req auth w1).1 with
                 | Some e => (None, Some e)
                 | None => (Some req, None)
                 end,
             (Request.Verify req auth w1).2)
        /\ Remove auth hash w =
            (Ret (Request.Reject req auth hash w1).1,
             (Request.Reject req auth hash w1).2)).
Proof. apply registry_checks. Qed.

(** X3: [Get] does not panic and returns either a request or an
    error, never both and never neither. *)
Theorem Get_request_or_error (auth : AuthInfo) (hash : string) (w : W) :
  exists r e, (Get auth hash w).1 = Ret (r, e) /\ (is_Some r <-> e = None).
Proof.
  destruct (registry_checks auth hash w)
    as [(e & -> & _) | (secret & w1 & req & _ & _ & _ & _ & -> & _)].
  - exists None, (Some e). split; [done|]. split; [by intros [? ?]|done].
  - cbn [fst]. destruct ((Request.Verify req auth w1).1) as [e|].
    + exists None, (Some e). split; [done|]. split; [by intros [? ?]|done].
    + exists (Some req), None. split; [done|]. by split.
Qed.

(** X4: what [Get] refuses before it hashes anything.  A stored
    record whose [Type] is missing, not a string or empty gives
    "Invalid request type"; a [Type] that does not lower-case to
    "policy" gives "Invalid request type: " followed by the type as it
    is stored; a policy record that does not decode gives the decoder's
    error.  In all three cases the world is as the read left it: the
    variant is not asked. *)
Theorem Get_refuses_unusable_record (auth : AuthInfo) (hash : string) (w : W)
    secret w1 :
  vault.ReadFromCubbyhole ("requests/" +:+ hash) w = ((Some secret, None), w1) ->
  (vault.Data secret !! "Type" = None
   \/ (exists v, vault.Data secret !! "Type" = Some v /\ forall s, v <> VString s)
   \/ vault.Data secret !! "Type" = Some (VString "") ->
   Get auth hash w = (Ret (None, Some "Invalid request type"), w1))
  /\ (forall t, vault.Data secret !! "Type" = Some (VString t) ->
        t <> "" -> strings.ToLower t <> "policy" ->
        Get auth hash w = (Ret (None, Some ("Invalid request type: " +:+ t)), w1))
  /\ (forall req e,
        strings.ToLower (typeOf (vault.Data secret)) = "policy" ->
        Decode (vault.Data secret) = (req, Some e) ->
        Get auth hash w = (Ret (None, Some e), w1)).
Proof.
  intros Hread. split; [|split].
  - intros Htype. unfold Get, bind, call. rewrite Hread.
    unfold typeOf.
    destruct Htype as [-> | [(v & -> & Hv) | ->]]; [done| |done].
    destruct v; try done. by destruct (Hv s).
  - intros t Ht Hne Hlow. unfold Get, bind, call. rewrite Hread.
    unfold typeOf. rewrite Ht. cbn [assertString fst].
    by rewrite !decide_False.
  - intros req e Hpol Hdec. unfold Get, bind, call. rewrite Hread, Hdec.
    rewrite decide_False by by apply ToLower_policy_nonempty.
    by rewrite decide_True.
Qed.

End registry_more.

(** A request removed, one whose stored [Name] was altered, and an
    identifier nothing is stored under. *)
Lemma Remove_verifies_integrity_witness :
  Remove tt "0" (SpecVault.fresh [])
    = (Ret (Some "Change ID not found"), SpecVault.fresh [])
  /\ (exists w2,
        Remove tt "276f083751fa3dfd"
          (Add tt {[ "Type" := VString "Policy"; "Name" := VString "readonly" ]}
               (SpecVault.fresh [])).2
        = (Ret None, w2)
        /\ SpecVault.cubbyhole w2 !! "requests/276f083751fa3dfd" = None)
  /\ (exists w1,
        Remove tt "276f083751fa3dfd"
          (SpecVault.write "requests/276f083751fa3dfd"
             {[ "Type" := VString "Policy"; "Name" := VString "admin" ]}
             (SpecVault.fresh [])).2
        = (Ret (Some "Hashes do not match"), w1)
        /\ is_Some (SpecVault.cubbyhole w1 !! "requests/276f083751fa3dfd")).
Proof.
  split; [|split].
  - apply (proj1 (Remove_verifies_integrity tt "0" (SpecVault.fresh []))).
    reflexivity.
  - eexists. split.
    + refine (proj2 (proj2
                (Remove_verifies_integrity tt "276f083751fa3dfd" _)
                {| vault.Data :=
                     {[ "Type" := VString "Policy"; "Name" := VString "readonly" ]} |}
                _ {| Fixture.policyType := "Policy";
                     Fixture.policyName := "readonly" |} _ _ _) _ _ None _ _).
      * vm_compute. reflexivity.
      * reflexivity.
      * reflexivity.
      * reflexivity.
      * reflexivity.
      * reflexivity.
    + vm_compute. reflexivity.
  - eexists. split.
    + refine (proj1 (proj2
                (Remove_verifies_integrity tt "276f083751fa3dfd" _)
                {| vault.Data :=
                     {[ "Type" := VString "Policy"; "Name" := VString "admin" ]} |}
                _ {| Fixture.policyType := "Policy";
                     Fixture.policyName := "admin" |} _ _ _) _).
      * vm_compute. reflexivity.
      * reflexivity.
      * reflexivity.
      * left. vm_compute. discriminate.
    + vm_compute. by eexists.
Defined.

(** Records with a numeric type, an unknown type and a [Name] the
    decoder refuses. *)
Lemma Get_refuses_unusable_record_witness :
  (exists w1,
     Get tt "1"
       (SpecVault.write "requests/1" {[ "Type" := VNumber 1 ]} (SpecVault.fresh [])).2
     = (Ret (None, Some "Invalid request type"), w1))
  /\ (exists w1,
        Get tt "1"
          (SpecVault.write "requests/1" {[ "Type" := VString "Token" ]}
             (SpecVault.fresh [])).2
        = (Ret (None, Some "Invalid request type: Token"), w1))
  /\ (exists w1,
        @Get _ _ _ _ _ Strict.policy_struct Strict.policy_methods tt "1"
          (SpecVault.write "requests/1"
             {[ "Type" := VString "policy"; "Name" := VNumber 7 ]}
             (SpecVault.fresh [])).2
        = (Ret (None, Some "'Name' expected type 'string'"), w1)).
Proof.
  split; [|split].
  - eexists.
    refine (proj1 (Get_refuses_unusable_record tt "1" _
                     {| vault.Data := {[ "Type" := VNumber 1 ]} |} _ _) _).
    + vm_compute. reflexivity.
    + right; left. exists (VNumber 1). split; [reflexivity|discriminate].
  - eexists.
    refine (proj1 (proj2 (Get_refuses_unusable_record tt "1" _
                     {| vault.Data := {[ "Type" := VString "Token" ]} |} _ _))
              "Token" _ _ _).
    + vm_compute. reflexivity.
    + reflexivity.
    + discriminate.
    + vm_compute. discriminate.
  - eexists.
    refine (proj2 (proj2 (@Get_refuses_unusable_record _ _ _ _ _
                     Strict.policy_struct Strict.policy_methods tt "1" _
                     {| vault.Data :=
                          {[ "Type" := VString "policy"; "Name" := VNumber 7 ]} |}
                     _ _))
              {| Strict.name := "" |} "'Name' expected type 'string'" _ _).
    + vm_compute. reflexivity.
    + reflexivity.
    + reflexivity.
Defined.

(** * The shape of an identifier *)

Section identifier_facts.

Import strconv.

Lemma hexDigit_digit d : 0 <= d < 16 -> hexDigit (digit d) = true.
Proof.
  intros Hd.
  assert (d = 0 \/ d = 1 \/ d = 2 \/ d = 3 \/ d = 4 \/ d = 5 \/ d = 6 \/ d = 7
          \/ d = 8 \/ d = 9 \/ d = 10 \/ d = 11 \/ d = 12 \/ d = 13 \/ d = 14
          \/ d = 15) as Hcases by lia.
  repeat (destruct Hcases as [-> | Hcases]; [reflexivity|]).
  by subst.
Qed.

Lemma digit_nonzero d : 0 < d < 16 -> digit d <> "0"%char.
Proof.
  intros Hd.
  assert (d = 1 \/ d = 2 \/ d = 3 \/ d = 4 \/ d = 5 \/ d = 6 \/ d = 7
          \/ d = 8 \/ d = 9 \/ d = 10 \/ d = 11 \/ d = 12 \/ d = 13 \/ d = 14
          \/ d = 15) as Hcases by lia.
  repeat (destruct Hcases as [-> | Hcases]; [discriminate|]).
  by subst.
Qed.

Lemma formatBits_hex fuel : forall u acc,
  0 <= u -> allBytes hexDigit acc = true ->
  allBytes hexDigit (formatBits fuel u 16 acc) = true.
Proof.
  induction fuel as [|fuel IH]; intros u acc Hu Hacc; [done|].
  cbn [formatBits]. destruct (Z.ltb_spec u 16) as [Hlt | Hge].
  - cbn [allBytes]. by rewrite hexDigit_digit, Hacc by lia.
  - apply IH; [apply Z.div_pos; lia|].
    cbn [allBytes]. rewrite hexDigit_digit, Hacc; [done|].
    apply Z.mod_pos_bound. lia.
Qed.

Lemma formatBits_length fuel : forall (k : nat) u acc,
  0 <= u < 16 ^ Z.of_nat k -> (1 <= k <= fuel)%nat ->
  (1 <= String.length (formatBits fuel u 16 acc) <= k + String.length acc)%nat.
Proof.
  induction fuel as [|fuel IH]; intros k u acc Hu Hk; [lia|].
  cbn [formatBits]. destruct (Z.ltb_spec u 16) as [Hlt | Hge].
  - cbn [String.length]. lia.
  - destruct k as [|k]; [lia|].
    rewrite Nat2Z.inj_succ, Z.pow_succ_r in Hu by lia.
    destruct k as [|k]; [cbn in Hu; lia|].
    pose proof (IH (S k) (u / 16) (String (digit (u mod 16)) acc)) as Hrec.
    cbn [String.length] in Hrec.
    assert (0 <= u / 16 < 16 ^ Z.of_nat (S k)) as Hdiv.
    { split; [apply Z.div_pos; lia|]. apply Z.div_lt_upper_bound; lia. }
    specialize (Hrec Hdiv). lia.
Qed.

Lemma formatBits_lead fuel : forall u acc,
  0 < u < 16 ^ Z.of_nat fuel ->
  exists c rest, formatBits fuel u 16 acc = String c rest /\ c <> "0"%char.
Proof.
  induction fuel as [|fuel IH]; intros u acc Hu; [cbn in Hu; lia|].
  cbn [formatBits]. destruct (Z.ltb_spec u 16) as [Hlt | Hge].
  - eexists _, _. split; [done|]. apply digit_nonzero. lia.
  - apply IH. rewrite Nat2Z.inj_succ, Z.pow_succ_r in Hu by lia.
    split; [|apply Z.div_lt_upper_bound; lia].
    apply Z.div_str_pos. lia.
Qed.

(** The hexadecimal form of a [uint64]: one to sixteen lower-case
    digits, with a leading zero only for zero itself. *)
Lemma FormatUint_canonical u :
  0 <= u < 2 ^ 64 ->
  allBytes hexDigit (FormatUint u 16) = true
  /\ (1 <= String.length (FormatUint u 16) <= 16)%nat
  /\ (forall rest, FormatUint u 16 = String "0" rest -> rest = "").
Proof.
  intros Hu. unfold FormatUint. split; [|split].
  - apply formatBits_hex; [lia|done].
  - pose proof (formatBits_length 64 16 u "") as Hlen. cbn [String.length] in Hlen.
    apply Hlen; [|lia].
    assert (16 ^ Z.of_nat 16 = 2 ^ 64) as -> by (by vm_compute). lia.
  - intros rest Hzero. destruct (decide (u = 0)) as [-> | Hne].
    + vm_compute in Hzero. by simplify_eq.
    + destruct (formatBits_lead 64 u "") as (c & rest' & Heq & Hc).
      { assert (2 ^ 64 <= 16 ^ Z.of_nat 64) by (by vm_compute). lia. }
      rewrite Heq in Hzero. by simplify_eq.
Qed.

Context {W AuthInfo PolicyRequest : Type}.
Context `{!strings.Unicode}.
Context `{!vault.Cubbyhole W}.
Context `{!PolicyStruct PolicyRequest}.
Context `{!Request.Interface W AuthInfo PolicyRequest}.

(** X5: identifiers are compared as strings, so [Get] only finds a
    request under the canonical spelling of its hash: whenever [Get]
    returns a request, [hash] is one to sixteen lower-case hexadecimal
    digits without a leading zero (other than "0" itself).  An
    identifier in upper case or padded with zeros is never found. *)
Theorem Get_identifier_canonical (auth : AuthInfo) (hash : string) (w : W)
    req e w' :
  Get auth hash w = (Ret (Some req, e), w') ->
  allBytes hexDigit hash = true
  /\ (1 <= String.length hash <= 16)%nat
  /\ (forall rest, hash = String "0" rest -> rest = "").
Proof.
  intros Hget.
  destruct (registry_checks auth hash w)
    as [(e' & Hget' & _) | (secret & w1 & req' & _ & _ & Hid & _ & _)].
  { rewrite Hget' in Hget. by simplify_eq. }
  rewrite <- Hid. apply FormatUint_canonical, Hash_uint64.
Qed.

(** X6: the bucket reads back.  For a non-empty list of tokens that
    are not empty and hold only ASCII bytes other than white space,
    the delimiter and brackets, the string [appendUnseal] writes is
    not empty and [strings.Split] at the delimiter gives the list
    back. *)
Theorem bucket_reads_back (l : list string) :
  l <> [] -> Forall (fun t => plainToken t = true) l ->
  serialize l <> "" /\ strings.Split (serialize l) ";" = l.
Proof.
  intros Hne Hl. destruct (Split_serialize l Hne Hl) as [Hsplit Hnonempty].
  by split.
Qed.

End identifier_facts.

(** The identifier of the request of the fixture. *)
Lemma Get_identifier_canonical_witness :
  allBytes hexDigit "276f083751fa3dfd" = true
  /\ (1 <= String.length "276f083751fa3dfd" <= 16)%nat
  /\ (forall rest, "276f083751fa3dfd" = String "0" rest -> rest = "").
Proof.
  refine (Get_identifier_canonical tt "276f083751fa3dfd"
            (Add tt {[ "Type" := VString "Policy"; "Name" := VString "readonly" ]}
                 (SpecVault.fresh [])).2
            {| Fixture.policyType := "Policy"; Fixture.policyName := "readonly" |}
            None _ _).
  vm_compute. reflexivity.
Defined.

(** A bucket of three tokens. *)
Lemma bucket_reads_back_witness :
  serialize ["4f0c-a1"; "s.Xy9"; "hvs-77"] <> ""
  /\ strings.Split (serialize ["4f0c-a1"; "s.Xy9"; "hvs-77"]) ";"
     = ["4f0c-a1"; "s.Xy9"; "hvs-77"].
Proof.
  apply (bucket_reads_back ["4f0c-a1"; "s.Xy9"; "hvs-77"]).
  - discriminate.
  - repeat constructor.
Defined.

(** * More on the unseal relay *)

Section relay_more.

Context {W : Type} `{!strings.Unicode, !vault.Cubbyhole W, !vault.Wrapping W}.

(** X7: the first share of a ceremony.  When nothing is stored for
    [hash], [appendUnseal] wraps the share, writes a bucket that holds
    the one token and returns the list of that token together with
    whatever the write returned: if the write fails, the caller gets
    both the list and the error. *)
Theorem appendUnseal_first_share hash unseal (w : W) w1 token w2 err w3 :
  vault.ReadFromCubbyhole ("unseal_wrapping_tokens/" +:+ hash) w
    = ((None, None), w1) ->
  vault.WrapData "60m" {[ "unseal_token" := VString unseal ]} w1
    = ((token, None), w2) ->
  vault.WriteToCubbyhole ("unseal_wrapping_tokens/" +:+ hash)
    {[ "wrapping_tokens" := VString (serialize [token]) ]} w2 = (err, w3) ->
  appendUnseal hash unseal w = (Ret ([token], err), w3).
Proof.
  intros Hread Hwrap Hwrite. unfold appendUnseal, bind, call. rewrite Hread.
  unfold wrapAndStore, bind, call. rewrite Hwrap. cbn [app]. by rewrite Hwrite.
Qed.

(** X8: when the service refuses to wrap the share, [appendUnseal]
    returns that error and no list, and the world is as the refusal
    left it: the bucket is not written, whether it existed or not. *)
Theorem appendUnseal_wrap_refused hash unseal (w : W) resp w1 token e w2 :
  vault.ReadFromCubbyhole ("unseal_wrapping_tokens/" +:+ hash) w
    = ((resp, None), w1) ->
  (resp = None
   \/ exists secret raw,
        resp = Some secret
        /\ vault.Data secret !! "wrapping_tokens" = Some (VString raw)
        /\ raw <> "") ->
  vault.WrapData "60m" {[ "unseal_token" := VString unseal ]} w1
    = ((token, Some e), w2) ->
  appendUnseal hash unseal w = (Ret ([], Some e), w2).
Proof.
  intros Hread Hresp Hwrap. unfold appendUnseal, bind, call. rewrite Hread.
  destruct Hresp as [-> | (secret & raw & -> & Hraw & Hne)].
  - unfold wrapAndStore, bind, call. by rewrite Hwrap.
  - rewrite Hraw. cbn [assertString fst]. rewrite decide_False by done.
    unfold wrapAndStore, bind, call. by rewrite Hwrap.
Qed.

(** X11: a token that unwraps to a payload without [unseal_token]
    ends the call with the "timed out" error and no share, although
    the unwrap itself succeeded; the tokens after it are not
    unwrapped. *)
Theorem unwrapUnseals_missing_share pre t post (w : W) shares w1 data w2 :
  unwrapUnseals pre w = (Ret (shares, None), w1) ->
  vault.UnwrapData t w1 = ((data, None), w2) ->
  data !! "unseal_token" = None ->
  unwrapUnseals (pre ++ t :: post) w =
    (Ret ([], Some "One of the wrapping tokens timed out. Progress reset."), w2).
Proof.
  intros Hpre Hun Hnone. unfold unwrapUnseals in *.
  rewrite (unwrapFrom_app _ _ _ _ _ _ Hpre).
  cbn [unwrapFrom]. unfold bind, call. by rewrite Hun, Hnone.
Qed.

End relay_more.

(** The first of the tokens the service will issue. *)
Lemma appendUnseal_first_share_witness :
  exists w3,
    appendUnseal "c" "s1" (SpecVault.fresh ["t1"; "t2"]) = (Ret (["t1"], None), w3)
    /\ SpecVault.cubbyhole w3 !! "unseal_wrapping_tokens/c"
       = Some {[ "wrapping_tokens" := VString "t1" ]}.
Proof.
  eexists. split.
  - refine (appendUnseal_first_share "c" "s1" (SpecVault.fresh ["t1"; "t2"])
              _ "t1" _ None _ _ _ _); reflexivity.
  - reflexivity.
Defined.

(** A service with no token left, without and with a bucket. *)
Lemma appendUnseal_wrap_refused_witness :
  appendUnseal "c" "s1" (SpecVault.fresh [])
    = (Ret ([], Some "wrapping refused"), SpecVault.fresh [])
  /\ appendUnseal "c" "s2"
       {| SpecVault.cubbyhole :=
            {[ "unseal_wrapping_tokens/c" := {[ "wrapping_tokens" := VString "t1" ]} ]};
          SpecVault.wrapped := ∅;
          SpecVault.supply := [] |}
     = (Ret ([], Some "wrapping refused"),
        {| SpecVault.cubbyhole :=
             {[ "unseal_wrapping_tokens/c" := {[ "wrapping_tokens" := VString "t1" ]} ]};
           SpecVault.wrapped := ∅;
           SpecVault.supply := [] |}).
Proof.
  split.
  - refine (appendUnseal_wrap_refused "c" "s1" (SpecVault.fresh []) None _ "" _ _
              _ _ _).
    + reflexivity.
    + by left.
    + reflexivity.
  - refine (appendUnseal_wrap_refused "c" "s2" _
              (Some {| vault.Data := {[ "wrapping_tokens" := VString "t1" ]} |})
              _ "" _ _ _ _ _).
    + reflexivity.
    + right. eexists _, "t1". split; [reflexivity|]. split; [reflexivity|discriminate].
    + reflexivity.
Defined.

(** A token that wraps something else than a share, between two that
    wrap shares. *)
Lemma unwrapUnseals_missing_share_witness :
  exists w2,
    unwrapUnseals ["t1"; "t2"; "t3"]
      {| SpecVault.cubbyhole := ∅;
         SpecVault.wrapped :=
           {[ "t1" := {[ "unseal_token" := VString "s1" ]};
              "t2" := {[ "password" := VString "hunter2" ]};
              "t3" := {[ "unseal_token" := VString "s3" ]} ]};
         SpecVault.supply := [] |}
    = (Ret ([], Some "One of the wrapping tokens timed out. Progress reset."), w2)
    /\ is_Some (SpecVault.wrapped w2 !! "t3").
Proof.
  eexists. split.
  - eapply (unwrapUnseals_missing_share ["t1"] "t2" ["t3"]).
    + vm_compute. reflexivity.
    + vm_compute. reflexivity.
    + reflexivity.
  - vm_compute. by eexists.
Defined.

(** * The relay on the modelled service *)

Section relay_on_service.

Context `{!strings.Unicode}.

Import SpecVault.

(** X9: the share is never stored.  On the modelled service, what
    [appendUnseal] returns, what the cubbyhole holds afterwards and the
    tokens left to issue are the same for any two shares: the share
    only reaches the service inside the wrapped payload. *)
Theorem appendUnseal_share_not_stored hash (s s' : string) (w : world) :
  (appendUnseal hash s w).1 = (appendUnseal hash s' w).1
  /\ cubbyhole (appendUnseal hash s w).2 = cubbyhole (appendUnseal hash s' w).2
  /\ supply (appendUnseal hash s w).2 = supply (appendUnseal hash s' w).2
  /\ dom (wrapped (appendUnseal hash s w).2) = dom (wrapped (appendUnseal hash s' w).2).
Proof.
  unfold appendUnseal, bind, call. cbn. unfold read.
  destruct (cubbyhole w !! ("unseal_wrapping_tokens/" +:+ hash)) as [data|];
    cbn -[serialize].
  - destruct (decide _); [done|].
    unfold wrapAndStore, bind, call. cbn -[serialize]. unfold wrap.
    destruct (supply w) as [|t rest]; [done|]. cbn -[serialize].
    repeat split; try done. by rewrite !dom_insert_L.
  - unfold wrapAndStore, bind, call. cbn -[serialize]. unfold wrap.
    destruct (supply w) as [|t rest]; [done|]. cbn -[serialize].
    repeat split; try done. by rewrite !dom_insert_L.
Qed.

(** X10: the write replaces the bucket by the list the call has read
    plus its own token.  When two calls have read the same list [l]
    before either writes, both return without error, but afterwards
    the bucket holds [l] and the second token only: the first token,
    though it wraps its share, is not in the bucket. *)
Theorem stale_append_overwrites hash s1 s2 l t1 t2 rest (w : world) :
  supply w = t1 :: t2 :: rest -> t1 <> t2 ->
  exists w1 w2,
    wrapAndStore hash s1 l w = (Ret (l ++ [t1], None), w1)
    /\ wrapAndStore hash s2 l w1 = (Ret (l ++ [t2], None), w2)
    /\ cubbyhole w2 !! ("unseal_wrapping_tokens/" +:+ hash)
       = Some {[ "wrapping_tokens" := VString (serialize (l ++ [t2])) ]}
    /\ wrapped w2 !! t1 = Some {[ "unseal_token" := VString s1 ]}.
Proof.
  intros Hsupply Hne.
  unfold wrapAndStore, bind, call. cbn -[serialize]. unfold wrap.
  rewrite Hsupply. cbn -[serialize]. unfold write. cbn -[serialize].
  eexists _, _. split; [done|]. split; [done|]. cbn -[serialize]. split.
  - by rewrite lookup_insert_eq.
  - rewrite lookup_insert_ne by done. by rewrite lookup_insert_eq.
Qed.

(** Unwrapping only removes tokens. *)
Lemma unwrapFrom_world toks : forall acc (w : world),
  cubbyhole (unwrapFrom toks acc w).2 = cubbyhole w
  /\ supply (unwrapFrom toks acc w).2 = supply w
  /\ (forall t, wrapped w !! t = None -> wrapped (unwrapFrom toks acc w).2 !! t = None).
Proof.
  induction toks as [|t toks IH]; intros acc w; [done|].
  cbn [unwrapFrom]. unfold bind, call. cbn. unfold unwrap.
  destruct (wrapped w !! t) as [data|] eqn:Ht; cbn; [|done].
  destruct (data !! "unseal_token") as [[]|]; cbn; try done;
    try (repeat split; try done; intros t' Ht';
         destruct (decide (t = t')) as [->|]; 
         [apply lookup_delete_eq | by rewrite lookup_delete_ne]).
  destruct (IH (acc ++ [s])
              {| cubbyhole := cubbyhole w; wrapped := delete t (wrapped w);
                 supply := supply w |}) as (Hc & Hs & Hw).
  repeat split; try done.
  intros t' Ht'. apply Hw. cbn.
  destruct (decide (t = t')) as [->|]; 
    [apply lookup_delete_eq | by rewrite lookup_delete_ne].
Qed.

(** A call that returns shares has consumed every token it was given. *)
Lemma unwrapFrom_consumes toks : forall acc (w : world) shares w',
  unwrapFrom toks acc w = (Ret (shares, None), w') ->
  forall t, t ∈ toks -> wrapped w' !! t = None.
Proof.
  induction toks as [|t toks IH]; intros acc w shares w' Hrun t' Hin.
  { by apply elem_of_nil in Hin. }
  cbn [unwrapFrom] in Hrun. unfold bind, call in Hrun. cbn in Hrun.
  unfold unwrap in Hrun.
  destruct (wrapped w !! t) as [data|] eqn:Ht; cbn in Hrun; [|done].
  destruct (data !! "unseal_token") as [[]|]; cbn in Hrun; try done.
  destruct (decide (t' ∈ toks)) as [Hin'|Hnotin].
  - by apply (IH _ _ _ _ Hrun).
  - apply elem_of_cons in Hin as [->|]; [|done].
    pose proof (unwrapFrom_world toks (acc ++ [s])
                  {| cubbyhole := cubbyhole w; wrapped := delete t (wrapped w);
                     supply := supply w |}) as (_ & _ & Hgone).
    rewrite Hrun in Hgone. cbn in Hgone. apply Hgone, lookup_delete_eq.
Qed.

(** X12: a ceremony consumes its tokens.  When the tokens are distinct
    and each wraps its share, [unwrapUnseals] returns the shares in
    the order of the tokens.  Afterwards none of the tokens unwraps
    any more, so a second call on the same non-empty list fails; the
    cubbyhole, and with it the bucket, is left as it was. *)
Theorem unwrapUnseals_consumes_tokens toks shares (w : world) :
  NoDup toks ->
  Forall2 (fun t s => wrapped w !! t = Some {[ "unseal_token" := VString s ]})
          toks shares ->
  exists w',
    unwrapUnseals toks w = (Ret (shares, None), w')
    /\ (forall t, t ∈ toks -> wrapped w' !! t = None)
    /\ cubbyhole w' = cubbyhole w
    /\ (toks <> [] ->
        (unwrapUnseals toks w').1
          = Ret ([], Some "wrapping token is not valid or does not exist")).
Proof.
  intros Hnd Hall.
  destruct (unwrapFrom_held toks shares [] w Hnd Hall) as (w' & Hrun).
  exists w'. split; [done|].
  assert (forall t, t ∈ toks -> wrapped w' !! t = None) as Hgone
    by (by apply (unwrapFrom_consumes _ _ _ _ _ Hrun)).
  split; [done|]. split.
  - pose proof (unwrapFrom_world toks [] w) as (Hc & _). by rewrite Hrun in Hc.
  - intros Hne. destruct toks as [|t toks]; [done|].
    unfold unwrapUnseals. cbn [unwrapFrom]. unfold bind, call. cbn.
    unfold unwrap. rewrite Hgone; [done|]. by left.
Qed.

(** X13: a token cannot be used twice in one list.  Whenever
    [unwrapUnseals] returns shares on the modelled service, the tokens
    it was given are distinct and every one of them was live. *)
Theorem unwrapUnseals_distinct_tokens toks (w : world) shares w' :
  unwrapUnseals toks w = (Ret (shares, None), w') ->
  NoDup toks /\ Forall (fun t => is_Some (wrapped w !! t)) toks.
Proof.
  unfold unwrapUnseals. generalize (@nil string) as acc.
  revert w shares w'.
  induction toks as [|t toks IH]; intros w shares w' acc Hrun.
  { split; constructor. }
  cbn [unwrapFrom] in Hrun. unfold bind, call in Hrun. cbn in Hrun.
  unfold unwrap in Hrun.
  destruct (wrapped w !! t) as [data|] eqn:Ht; cbn in Hrun; [|done].
  destruct (data !! "unseal_token") as [[]|]; cbn in Hrun; try done.
  destruct (IH _ _ _ _ Hrun) as [Hnd Hlive]. cbn in Hlive. split.
  - constructor; [|done]. intros Hin.
    eapply Forall_forall in Hlive; [|exact Hin]. cbn in Hlive.
    rewrite lookup_delete_eq in Hlive. by destruct Hlive.
  - constructor; [by rewrite Ht|].
    eapply Forall_impl; [exact Hlive|]. intros t' [d Hd]. cbn in Hd.
    destruct (decide (t = t')) as [->|Hne].
    + by rewrite lookup_delete_eq in Hd.
    + rewrite lookup_delete_ne in Hd by done. by exists d.
Qed.

End relay_on_service.

(** Two contributors who both read the bucket ["t0"]. *)
Lemma stale_append_overwrites_witness :
  exists w1 w2,
    wrapAndStore "c" "s1" ["t0"]
      {| SpecVault.cubbyhole :=
           {[ "unseal_wrapping_tokens/c" := {[ "wrapping_tokens" := VString "t0" ]} ]};
         SpecVault.wrapped := {[ "t0" := {[ "unseal_token" := VString "s0" ]} ]};
         SpecVault.supply := ["t1"; "t2"] |}
    = (Ret (["t0"; "t1"], None), w1)
    /\ wrapAndStore "c" "s2" ["t0"] w1 = (Ret (["t0"; "t2"], None), w2)
    /\ SpecVault.cubbyhole w2 !! "unseal_wrapping_tokens/c"
       = Some {[ "wrapping_tokens" := VString "t0;t2" ]}
    /\ SpecVault.wrapped w2 !! "t1" = Some {[ "unseal_token" := VString "s1" ]}.
Proof.
  refine (stale_append_overwrites "c" "s1" "s2" ["t0"] "t1" "t2" [] _ _ _).
  - reflexivity.
  - discriminate.
Defined.

(** The three tokens of a ceremony, unwrapped once and then again. *)
Lemma unwrapUnseals_consumes_tokens_witness :
  exists w',
    unwrapUnseals ["t1"; "t2"; "t3"]
      (runEach (appendUnseal "c" <$> ["s1"; "s2"; "s3"])
               (SpecVault.fresh ["t1"; "t2"; "t3"])).2
    = (Ret (["s1"; "s2"; "s3"], None), w')
    /\ (forall t, t ∈ ["t1"; "t2"; "t3"] -> SpecVault.wrapped w' !! t = None)
    /\ SpecVault.cubbyhole w'
       = {[ "unseal_wrapping_tokens/c" := {[ "wrapping_tokens" := VString "t1;t2;t3" ]} ]}
    /\ (["t1"; "t2"; "t3"] <> [] ->
        (unwrapUnseals ["t1"; "t2"; "t3"] w').1
          = Ret ([], Some "wrapping token is not valid or does not exist")).
Proof.
  refine (unwrapUnseals_consumes_tokens ["t1"; "t2"; "t3"] ["s1"; "s2"; "s3"]
            (runEach (appendUnseal "c" <$> ["s1"; "s2"; "s3"])
                     (SpecVault.fresh ["t1"; "t2"; "t3"])).2 _ _).
  - apply (bool_decide_unpack _). vm_compute. exact I.
  - repeat constructor.
Defined.

(** Two live tokens. *)
Lemma unwrapUnseals_distinct_tokens_witness :
  NoDup ["t1"; "t2"]
  /\ Forall (fun t =>
       is_Some ((({[ "t1" := {[ "unseal_token" := VString "s1" ]};
                     "t2" := {[ "unseal_token" := VString "s2" ]} ]}
                  : gmap string fields)) !! t))
       ["t1"; "t2"].
Proof.
  refine (unwrapUnseals_distinct_tokens ["t1"; "t2"]
            {| SpecVault.cubbyhole := ∅;
               SpecVault.wrapped :=
                 {[ "t1" := {[ "unseal_token" := VString "s1" ]};
                    "t2" := {[ "unseal_token" := VString "s2" ]} ]};
               SpecVault.supply := [] |}
            ["s1"; "s2"] _ _).
  vm_compute. reflexivity.
Defined.

(** * More on the root token generator *)

Section ceremony_more.

Context {W : Type} `{!Codecs, !vault.GenerateRoot W, !securecookie.Random W}.

(** Shares that are all taken leave the loop where it would start on
    the remaining ones. *)
Lemma submitShares_app pre : forall rest st (w : W) st' w',
  submitShares pre st w = (Ret (Next st'), w') ->
  submitShares (pre ++ rest) st w = submitShares rest st' w'.
Proof.
  induction pre as [|s pre IH]; intros rest st w st' w' Hpre.
  - cbn in Hpre. unfold ret in Hpre. by simplify_eq.
  - cbn [app submitShares] in Hpre |- *. unfold bind, deref, call in Hpre |- *.
    destruct st as [st|]; [|done].
    destruct (vault.GenerateRootUpdate s (vault.Nonce st) w) as [[status [e|]] w1].
    + destruct (vault.GenerateRootCancel w1) as [[e2|] w2]; [done|].
      by apply IH.
    + by apply IH.
Qed.

(** A [return] from inside the loop carries an error and no token. *)
Lemma submitShares_return unsealKeys : forall st (w : W) token err w',
  submitShares unsealKeys st w = (Ret (Return token err), w') ->
  token = "" /\ err <> None.
Proof.
  induction unsealKeys as [|s keys IH]; intros st w token err w' Hrun; [done|].
  cbn [submitShares] in Hrun. unfold bind, deref, call in Hrun.
  destruct st as [st|]; [|done].
  destruct (vault.GenerateRootUpdate s (vault.Nonce st) w) as [[status [e|]] w1].
  - destruct (vault.GenerateRootCancel w1) as [[e2|] w2].
    + unfold ret in Hrun. by simplify_eq.
    + by apply IH in Hrun.
  - by apply IH in Hrun.
Qed.

Lemma generateRootToken_error_no_token unsealKeys (w : W) token e w' :
  generateRootToken unsealKeys w = (Ret (token, Some e), w') -> token = "".
Proof.
  unfold generateRootToken, bind, call, deref. intros Hrun.
  destruct (securecookie.GenerateRandomKey 16 w) as [key w1].
  destruct (vault.GenerateRootInit (EncodeToString key) w1)
    as [[status [e1|]] w2].
  { unfold ret in Hrun. by simplify_eq. }
  destruct status as [st|]; [|done].
  destruct (if decide (vault.EncodedRootToken st = "")
            then submitShares unsealKeys (Some st)
            else ret (Next (Some st))) as [[phase|] w3] eqn:Hphase; [|done].
  destruct phase as [status|token' err].
  - unfold decodeRootToken, bind, deref in Hrun.
    destruct status as [st'|]; [|done].
    destruct (decide (vault.EncodedRootToken st' = "")).
    { unfold ret in Hrun. by simplify_eq. }
    destruct (XORBase64 _ _) as [tokenBytes [e2|]].
    { unfold ret in Hrun. by simplify_eq. }
    destruct (FormatUUID tokenBytes) as [tok [e3|]];
      unfold ret in Hrun; by simplify_eq.
  - unfold ret in Hrun. simplify_eq.
    destruct (decide (vault.EncodedRootToken st = "")); [|done].
    by apply submitShares_return in Hphase as [-> _].
Qed.

(** X14: [generateRootToken] never returns a token together with an
    error: whenever the error is not nil, the token is the empty
    string. *)
Theorem generateRootToken_token_or_error unsealKeys (w : W) :
  match (generateRootToken unsealKeys w).1 with
  | Ret (token, Some _) => token = ""
  | _ => True
  end.
Proof.
  destruct (generateRootToken unsealKeys w) as [[[token [e|]]|] w'] eqn:Hrun;
    cbn; try done.
  by apply generateRootToken_error_no_token in Hrun.
Qed.

(** X15: how a ceremony fails to start.  An error of the initiation
    is returned as it is, with no token, and no share is submitted;
    an initiation that returns neither a status nor an error makes
    the function panic on its first look at the status. *)
Theorem generateRootToken_not_started unsealKeys (w : W) key w1 :
  securecookie.GenerateRandomKey 16 w = (key, w1) ->
  (forall status e w2,
      vault.GenerateRootInit (EncodeToString key) w1 = ((status, Some e), w2) ->
      generateRootToken unsealKeys w = (Ret ("", Some e), w2))
  /\ (forall w2,
        vault.GenerateRootInit (EncodeToString key) w1 = ((None, None), w2) ->
        generateRootToken unsealKeys w = (Panic, w2)).
Proof.
  intros Hkey. split.
  - intros status e w2 Hinit.
    unfold generateRootToken, bind, call. by rewrite Hkey, Hinit.
  - intros w2 Hinit.
    unfold generateRootToken, bind, call, deref. by rewrite Hkey, Hinit.
Qed.

(** X16: a share is rejected after the shares before it were taken,
    and the cancellation fails as well: the function returns at once
    with no token and one error that names both failures, and the
    shares after the rejected one are not submitted. *)
Theorem generateRootToken_rejected_not_cancelled pre s post (w : W)
    key w1 st w2 st' w3 status e w4 e2 w5 :
  securecookie.GenerateRandomKey 16 w = (key, w1) ->
  vault.GenerateRootInit (EncodeToString key) w1 = ((Some st, None), w2) ->
  vault.EncodedRootToken st = "" ->
  submitShares pre (Some st) w2 = (Ret (Next (Some st')), w3) ->
  vault.GenerateRootUpdate s (vault.Nonce st') w3 = ((status, Some e), w4) ->
  vault.GenerateRootCancel w4 = (Some e2, w5) ->
  generateRootToken (pre ++ s :: post) w =
    (Ret ("", Some ("Could not generate root token: " +:+ e +:+ ", " +:+ e2)), w5).
Proof.
  intros Hkey Hinit Hempty Hpre Hup Hcancel.
  unfold generateRootToken, bind, call, deref. rewrite Hkey, Hinit.
  rewrite decide_True by done.
  rewrite (submitShares_app _ _ _ _ _ _ Hpre).
  by rewrite (submitShares_rejected_cancel_failed _ _ _ _ _ _ _ _ _ Hup Hcancel).
Qed.

(** X17: a share is rejected with a nil status and the cancellation
    succeeds: the function does not return an error but panics, on
    the next share if there is one and on the final look at the status
    if not.  No share after the rejected one is submitted. *)
Theorem generateRootToken_panics_after_rejection pre s post (w : W)
    key w1 st w2 st' w3 e w4 w5 :
  securecookie.GenerateRandomKey 16 w = (key, w1) ->
  vault.GenerateRootInit (EncodeToString key) w1 = ((Some st, None), w2) ->
  vault.EncodedRootToken st = "" ->
  submitShares pre (Some st) w2 = (Ret (Next (Some st')), w3) ->
  vault.GenerateRootUpdate s (vault.Nonce st') w3 = ((None, Some e), w4) ->
  vault.GenerateRootCancel w4 = (None, w5) ->
  generateRootToken (pre ++ s :: post) w = (Panic, w5).
Proof.
  intros Hkey Hinit Hempty Hpre Hup Hcancel.
  unfold generateRootToken, bind, call, deref. rewrite Hkey, Hinit.
  rewrite decide_True by done.
  rewrite (submitShares_app _ _ _ _ _ _ Hpre).
  rewrite (submitShares_rejected_cancelled _ _ _ _ _ _ _ _ Hup Hcancel).
  by destruct post.
Qed.

(** X18: the token is decoded with the pad that was sent.  When the
    shares are all submitted and the last status carries an encoded
    token, the result is that token combined by [XORBase64] with the
    one-time pad that was given to the initiation, formatted by
    [FormatUUID]; a failure of either decoder gives the "search and
    revoke" error, which does not repeat the decoder's own error. *)
Theorem generateRootToken_decodes_last_status unsealKeys (w : W)
    key w1 st w2 st' w3 :
  securecookie.GenerateRandomKey 16 w = (key, w1) ->
  vault.GenerateRootInit (EncodeToString key) w1 = ((Some st, None), w2) ->
  vault.EncodedRootToken st = "" ->
  submitShares unsealKeys (Some st) w2 = (Ret (Next (Some st')), w3) ->
  vault.EncodedRootToken st' <> "" ->
  generateRootToken unsealKeys w =
    (Ret match XORBase64 (vault.EncodedRootToken st') (EncodeToString key) with
         | (_, Some _) =>
             ("", Some "Could not decode root token. Please search and revoke")
         | (tokenBytes, None) =>
             match FormatUUID tokenBytes with
             | (_, Some _) =>
                 ("", Some "Could not decode root token. Please search and revoke")
             | (token, None) => (token, None)
             end
         end,
     w3).
Proof.
  intros Hkey Hinit Hempty Hloop Hfull.
  unfold generateRootToken, bind, call, deref. rewrite Hkey, Hinit.
  rewrite decide_True by done. rewrite Hloop.
  unfold decodeRootToken, bind, deref. rewrite decide_False by done.
  destruct (XORBase64 _ _) as [tokenBytes [e|]]; [done|].
  by destruct (FormatUUID tokenBytes) as [token [e|]].
Qed.

End ceremony_more.

(** A service out of reach, and one that answers the initiation with
    nothing. *)
Lemma generateRootToken_not_started_witness :
  generateRootToken ["k1"; "k2"] {| Outage.attempts := 0 |}
    = (Ret ("", Some "Vault is sealed"), {| Outage.attempts := 1 |})
  /\ exists w2,
       generateRootToken ["k1"; "k2"]
         {| Fixture.random := [];
            Fixture.onInit := (None, None);
            Fixture.onUpdate := [];
            Fixture.onCancel := None;
            Fixture.sent := [];
            Fixture.cancelled := 0 |}
       = (Panic, w2)
       /\ Fixture.sent w2 = [].
Proof.
  split.
  - refine (proj1 (generateRootToken_not_started ["k1"; "k2"]
                     {| Outage.attempts := 0 |} [] _ _) None _ _ _); reflexivity.
  - eexists. split.
    + refine (proj2 (generateRootToken_not_started ["k1"; "k2"] _ [] _ _) _ _);
        reflexivity.
    + reflexivity.
Defined.

(** The second of three shares is rejected and the cancellation
    fails: the third is not sent. *)
Lemma generateRootToken_rejected_not_cancelled_witness :
  exists w5,
    generateRootToken ["k1"; "bad"; "k3"]
      {| Fixture.random := [];
         Fixture.onInit :=
           (Some {| vault.Nonce := "n0"; vault.EncodedRootToken := "" |}, None);
         Fixture.onUpdate :=
           [(Some {| vault.Nonce := "n1"; vault.EncodedRootToken := "" |}, None);
            (None, Some "invalid key")];
         Fixture.onCancel := Some "sealed";
         Fixture.sent := [];
         Fixture.cancelled := 0 |}
    = (Ret ("", Some "Could not generate root token: invalid key, sealed"), w5)
    /\ Fixture.sent w5 = [("k1", "n0"); ("bad", "n1")].
Proof.
  eexists. split.
  - refine (generateRootToken_rejected_not_cancelled ["k1"] "bad" ["k3"] _
              [] _ {| vault.Nonce := "n0"; vault.EncodedRootToken := "" |} _
              {| vault.Nonce := "n1"; vault.EncodedRootToken := "" |} _
              None "invalid key" _ "sealed" _ _ _ _ _ _ _); reflexivity.
  - reflexivity.
Defined.

(** The second of three shares is rejected and the cancellation
    succeeds. *)
Lemma generateRootToken_panics_after_rejection_witness :
  exists w5,
    generateRootToken ["k1"; "bad"; "k3"]
      {| Fixture.random := [];
         Fixture.onInit :=
           (Some {| vault.Nonce := "n0"; vault.EncodedRootToken := "" |}, None);
         Fixture.onUpdate :=
           [(Some {| vault.Nonce := "n1"; vault.EncodedRootToken := "" |}, None);
            (None, Some "invalid key")];
         Fixture.onCancel := None;
         Fixture.sent := [];
         Fixture.cancelled := 0 |}
    = (Panic, w5)
    /\ Fixture.sent w5 = [("k1", "n0"); ("bad", "n1")].
Proof.
  eexists. split.
  - refine (generateRootToken_panics_after_rejection ["k1"] "bad" ["k3"] _
              [] _ {| vault.Nonce := "n0"; vault.EncodedRootToken := "" |} _
              {| vault.Nonce := "n1"; vault.EncodedRootToken := "" |} _
              "invalid key" _ _ _ _ _ _ _ _); reflexivity.
  - reflexivity.
Defined.

(** Two shares complete the token; a token of another length than the
    pad is not decoded. *)
Lemma generateRootToken_decodes_last_status_witness :
  (exists w3,
     generateRootToken ["k1"; "k2"]
       {| Fixture.random := [];
          Fixture.onInit :=
            (Some {| vault.Nonce := "n"; vault.EncodedRootToken := "" |}, None);
          Fixture.onUpdate :=
            [(Some {| vault.Nonce := "n"; vault.EncodedRootToken := "" |}, None);
             (Some {| vault.Nonce := "n"; vault.EncodedRootToken := "enc" |}, None)];
          Fixture.onCancel := None;
          Fixture.sent := [];
          Fixture.cancelled := 0 |}
     = (Ret ("uuid", None), w3))
  /\ (exists w3,
        generateRootToken ["k1"]
          {| Fixture.random := [];
             Fixture.onInit :=
               (Some {| vault.Nonce := "n"; vault.EncodedRootToken := "" |}, None);
             Fixture.onUpdate :=
               [(Some {| vault.Nonce := "n"; vault.EncodedRootToken := "encoded" |},
                 None)];
             Fixture.onCancel := None;
             Fixture.sent := [];
             Fixture.cancelled := 0 |}
        = (Ret ("", Some "Could not decode root token. Please search and revoke"),
           w3)).
Proof.
  split.
  - eexists. etransitivity.
    + refine (generateRootToken_decodes_last_status ["k1"; "k2"] _
                [] _ {| vault.Nonce := "n"; vault.EncodedRootToken := "" |} _
                {| vault.Nonce := "n"; vault.EncodedRootToken := "enc" |} _
                _ _ _ _ _); try reflexivity. discriminate.
    + reflexivity.
  - eexists. etransitivity.
    + refine (generateRootToken_decodes_last_status ["k1"] _
                [] _ {| vault.Nonce := "n"; vault.EncodedRootToken := "" |} _
                {| vault.Nonce := "n"; vault.EncodedRootToken := "encoded" |} _
                _ _ _ _ _); try reflexivity. discriminate.
    + reflexivity.
Defined.

(** * When the cubbyhole cannot be read *)

Section read_errors.

Context {W AuthInfo PolicyRequest : Type}.
Context `{!strings.Unicode}.
Context `{!vault.Cubbyhole W, !vault.Wrapping W}.
Context `{!PolicyStruct PolicyRequest}.
Context `{!Request.Interface W AuthInfo PolicyRequest}.

(** X19: an error of the read is returned as it is, and nothing else
    is done: [Get] and [Remove] do not look at the record or ask the
    variant, and [appendUnseal] neither wraps the share nor writes,
    even when the read returned a record along with the error. *)
Theorem read_error_returned (auth : AuthInfo) (hash unseal : string) (w : W) :
  (forall resp e w1,
      vault.ReadFromCubbyhole ("requests/" +:+ hash) w = ((resp, Some e), w1) ->
      Get auth hash w = (Ret (None, Some e), w1)
      /\ Remove auth hash w = (Ret (Some e), w1))
  /\ (forall resp e w1,
        vault.ReadFromCubbyhole ("unseal_wrapping_tokens/" +:+ hash) w
          = ((resp, Some e), w1) ->
        appendUnseal hash unseal w = (Ret ([], Some e), w1)).
Proof.
  split.
  - intros resp e w1 Hread. unfold Get, Remove, bind, call. by rewrite Hread.
  - intros resp e w1 Hread. unfold appendUnseal, bind, call. by rewrite Hread.
Qed.

End read_errors.

(** A sealed vault: one read attempt each, nothing else. *)
Lemma read_error_returned_witness :
  (Get tt "276f083751fa3dfd" {| Outage.attempts := 0 |}
     = (Ret (None, Some "Vault is sealed"), {| Outage.attempts := 1 |})
   /\ Remove tt "276f083751fa3dfd" {| Outage.attempts := 0 |}
     = (Ret (Some "Vault is sealed"), {| Outage.attempts := 1 |}))
  /\ appendUnseal "276f083751fa3dfd" "s1" {| Outage.attempts := 0 |}
     = (Ret ([], Some "Vault is sealed"), {| Outage.attempts := 1 |}).
Proof.
  split.
  - refine (proj1 (read_error_returned tt "276f083751fa3dfd" "s1"
                     {| Outage.attempts := 0 |}) None _ _ _).
    reflexivity.
  - refine (proj2 (read_error_returned (AuthInfo := unit)
                     (PolicyRequest := Fixture.PolicyRequest) tt
                     "276f083751fa3dfd" "s1"
                     {| Outage.attempts := 0 |}) None _ _ _).
    reflexivity.
Defined.
